(** * tools/batools/pcommand2.py: build-artifact housekeeping commands

    A shallow embedding of three project commands,

    - [clean_orphaned_assets]   (manifest-driven removal of stale asset files),
    - [win_ci_install_prereqs]  (selection and fetching of cached build targets),
    - [update_cmake_prefab_lib] (timestamp-driven staging of a prefab library),

    together with the facts about them that the design document of the
    project relies on.  Definitions come first, statements afterwards. *)

From stdpp Require Import base strings list gmap sorting.

Open Scope string_scope.
Open Scope list_scope.
Set Warnings "-register-all".

(** ** Python values and exceptions *)

(** Exceptions the three commands can end with. *)
Inductive exn :=
| FileNotFoundError (path : string)
| JSONDecodeError
| TypeError
| AttributeError
| OSError (path : string)
| CalledProcessError (cmd : list string)
| CleanError (msg : string)
| OtherError (tag : string).

Inductive result (A : Type) :=
| Ok (a : A)
| Raise (e : exn).
Arguments Ok {A} a.
Arguments Raise {A} e.

(** What [json.loads] hands back.  Number literals are kept as text: the
    commands never compute with them. *)
Inductive json :=
| JNull
| JBool (b : bool)
| JNum (lit : string)
| JStr (s : string)
| JArr (items : list json)
| JObj (members : list (string * json)).

(** A file that a command opens and decodes: it may be absent, hold text
    that is not JSON, or hold a JSON document. *)
Inductive json_file :=
| Absent
| Garbled
| Holds (doc : json).

(** [json.loads(open(path).read())] *)
Definition load_json (path : string) (f : json_file) : result json :=
  match f with
  | Absent => Raise (FileNotFoundError path)
  | Garbled => Raise JSONDecodeError
  | Holds doc => Ok doc
  end.

(** A file holding a JSON list of strings. *)
Definition listing (l : list string) : json_file := Holds (JArr (JStr <$> l)).

(** The documents [set(json.loads(...))] does not accept, and the files
    that cannot be opened or decoded. *)
Definition rejected (f : json_file) : bool :=
  match f with
  | Absent | Garbled => true
  | Holds (JNull | JBool _ | JNum _) => true
  | Holds (JArr items) => negb (forallb (λ v, match v with
                                             | JArr _ | JObj _ => false
                                             | _ => true
                                             end) items)
  | Holds (JStr _ | JObj _) => false
  end.

(** ** Strings, the way the commands use them *)

(** [s[n:]] *)
Fixpoint str_drop (n : nat) (s : string) : string :=
  match n, s with
  | O, _ => s
  | S _, EmptyString => EmptyString
  | S n', String _ s' => str_drop n' s'
  end.

(** [s.startswith(p)] *)
Definition startswith (s p : string) : bool := String.prefix p s.

(** [p in s] *)
Fixpoint str_contains (p s : string) : bool :=
  String.prefix p s ||
  match s with
  | EmptyString => false
  | String _ s' => str_contains p s'
  end.

(** [s.endswith('/')] *)
Fixpoint endswith_sep (s : string) : bool :=
  match s with
  | EmptyString => false
  | String c s' =>
      match s' with
      | EmptyString => bool_decide (s = "/")
      | String _ _ => endswith_sep s'
      end
  end.

(** [os.path.join(a, b)] of posixpath, for two arguments. *)
Definition os_path_join (a b : string) : string :=
  if startswith b "/" then b
  else if bool_decide (a = "") || endswith_sep a then a +:+ b
  else a +:+ "/" +:+ b.

(** A byte [10xxxxxx]: inside the UTF-8 encoding of a character, never at
    its start. *)
Definition is_continuation (c : Ascii.ascii) : bool :=
  let n := Ascii.nat_of_ascii c in
  (128 <=? n)%nat && (n <? 192)%nat.

(** Iterating over a [str] yields its one-character strings.  Text is held
    here as its UTF-8 bytes, so a character is a byte together with the
    continuation bytes that follow it. *)
Fixpoint chars (s : string) : list string :=
  match s with
  | EmptyString => []
  | String c s' =>
      match s' with
      | EmptyString => [String c EmptyString]
      | String d _ =>
          if is_continuation d then
            match chars s' with
            | g :: gs => String c g :: gs
            | [] => [String c EmptyString]
            end
          else String c EmptyString :: chars s'
      end
  end.

(** A string that does not begin with the separator. *)
Definition no_lead_sep (s : string) : Prop := startswith s "/" = false.

(** While [os.walk] descends from [build/assets], the directory [root] it
    reports and the root-relative prefix [pre] of that directory stay in
    step: [root/] is [build/assets/] followed by [pre]. *)
Record in_step (root pre : string) : Prop := InStep {
  step_nonempty : root ≠ "";
  step_no_sep : endswith_sep root = false;
  step_eq : root +:+ "/" = "build/assets/" +:+ pre;
  step_pre : no_lead_sep pre
}.

(** ** Python's [set(...)] on a decoded document

    Only [str in manifest] is ever asked of the resulting set, and a [str]
    equals no number, boolean or [None]; the set is therefore represented by
    its string members. *)

Definition hashable (v : json) : bool :=
  match v with
  | JArr _ | JObj _ => false
  | _ => true
  end.

Definition as_str (v : json) : option string :=
  match v with
  | JStr s => Some s
  | _ => None
  end.

Definition py_set (v : json) : result (gset string) :=
  match v with
  | JNull | JBool _ | JNum _ => Raise TypeError
  | JStr s => Ok (list_to_set (chars s))
  | JArr items =>
      if forallb hashable items then Ok (list_to_set (omap as_str items))
      else Raise TypeError
  | JObj members => Ok (list_to_set (members.*1))
  end.

(** ** clean_orphaned_assets *)

Module Clean.

(** The directory [build/assets] as [os.walk] sees it: each directory has
    the names of its non-directory entries and its sub-directories. *)
Inductive tree :=
| Dir (fnames : list string) (dirs : forest)
with forest :=
| FNil
| FCons (name : string) (sub : tree) (rest : forest).

Inductive event :=
| Print (msg : string)
| Unlink (fpath : string)
| Rmdir (below : list string).
(* [Rmdir ds]: [find] deletes the directory reached from build/assets
   through the components [ds]. *)

Record outcome (A : Type) := Outcome {
  final : A;
  trace : list event;
  raised : option exn
}.
Arguments Outcome {A} final trace raised.
Arguments final {A} o.
Arguments trace {A} o.
Arguments raised {A} o.

Record world := World {
  manifest_public : json_file;
  manifest_private : json_file;
  assets : option tree
}.

Definition at_root (p : string) : string := "build/assets/" +:+ p.

Definition removing (fpath : string) : string :=
  "Removing orphaned asset file: " +:+ fpath.

Section walk.
(** [unlink_ok fpath = false]: [os.unlink(fpath)] raises [OSError]
    (no permission, or the file went away under our feet). *)
Context (unlink_ok : string → bool).
Context (manifest : gset string).

(** The body of [for fname in fnames], for one directory [root]. *)
Fixpoint unlink_loop (root : string) (fnames : list string)
  : outcome (list string) :=
  match fnames with
  | [] => Outcome [] [] None
  | fname :: rest =>
      let fpath := os_path_join root fname in
      let fpathrel := str_drop 13 fpath in
      if decide (fpathrel ∈ manifest) then
        let o := unlink_loop root rest in
        Outcome (fname :: final o) (trace o) (raised o)
      else if unlink_ok fpath then
        let o := unlink_loop root rest in
        Outcome (final o)
                (Print (removing fpath) :: Unlink fpath :: trace o)
                (raised o)
      else
        Outcome (fname :: rest) [Print (removing fpath)]
                (Some (OSError fpath))
  end.

(** [for root, _dirs, fnames in os.walk(top)]: top-down, the directory's
    own files first, then each sub-directory in turn. *)
Fixpoint walk (root : string) (t : tree) : outcome tree :=
  match t with
  | Dir fnames dirs =>
      let o := unlink_loop root fnames in
      match raised o with
      | Some e => Outcome (Dir (final o) dirs) (trace o) (Some e)
      | None =>
          let od := walk_dirs root dirs in
          Outcome (Dir (final o) (final od)) (trace o ++ trace od)
                  (raised od)
      end
  end
with walk_dirs (root : string) (ds : forest) : outcome forest :=
  match ds with
  | FNil => Outcome FNil [] None
  | FCons name sub rest =>
      let o := walk (os_path_join root name) sub in
      match raised o with
      | Some e => Outcome (FCons name (final o) rest) (trace o) (Some e)
      | None =>
          let orest := walk_dirs root rest in
          Outcome (FCons name (final o) (final orest))
                  (trace o ++ trace orest) (raised orest)
      end
  end.
End walk.

(** The same loop seen from above: one pass over the root-relative paths
    of the files present, in the order the walk meets them.  [walk] is
    shown to do what this pass does. *)
Section sweep.
Context (unlink_ok : string → bool).
Context (manifest : gset string).

Fixpoint sweep (ps : list string) : outcome (list string) :=
  match ps with
  | [] => Outcome [] [] None
  | p :: rest =>
      let fpath := "build/assets/" +:+ p in
      if decide (p ∈ manifest) then
        let o := sweep rest in
        Outcome (p :: final o) (trace o) (raised o)
      else if unlink_ok fpath then
        let o := sweep rest in
        Outcome (final o)
                (Print (removing fpath) :: Unlink fpath :: trace o)
                (raised o)
      else
        Outcome (p :: rest) [Print (removing fpath)]
                (Some (OSError fpath))
  end.
End sweep.

(** [find build/assets -depth -empty -type d -delete]: post-order, a
    directory goes when nothing is left in it once its children are done.
    The starting directory itself is a candidate too.  [find] is taken to
    succeed whenever build/assets exists. *)
Fixpoint prune (below : list string) (t : tree)
  : option tree * list event :=
  match t with
  | Dir fnames dirs =>
      let '(dirs', lg) := prune_dirs below dirs in
      match fnames, dirs' with
      | [], FNil => (None, lg ++ [Rmdir below])
      | _, _ => (Some (Dir fnames dirs'), lg)
      end
  end
with prune_dirs (below : list string) (ds : forest)
  : forest * list event :=
  match ds with
  | FNil => (FNil, [])
  | FCons name sub rest =>
      let '(sub', lg1) := prune (below ++ [name]) sub in
      let '(rest', lg2) := prune_dirs below rest in
      (match sub' with
       | Some s => FCons name s rest'
       | None => rest'
       end, lg1 ++ lg2)
  end.

Definition find_cmd : list string :=
  ["find build/assets -depth -empty -type d -delete"].

Definition stop (w : world) (lg : list event) (e : exn) : outcome world :=
  Outcome w lg (Some e).

Definition clean_orphaned_assets (unlink_ok : string → bool) (w : world)
  : outcome world :=
  match load_json "src/assets/.asset_manifest_public.json"
                  (manifest_public w) with
  | Raise e => stop w [] e
  | Ok pub =>
  match py_set pub with
  | Raise e => stop w [] e
  | Ok manifest0 =>
  match load_json "src/assets/.asset_manifest_private.json"
                  (manifest_private w) with
  | Raise e => stop w [] e
  | Ok priv =>
  match py_set priv with
  | Raise e => stop w [] e
  | Ok more =>
      let manifest := manifest0 ∪ more in
      match assets w with
      | None =>
          (* nothing to walk; find exits with an error *)
          stop w [] (CalledProcessError find_cmd)
      | Some t =>
          let o := walk unlink_ok manifest "build/assets" t in
          let w1 := World (manifest_public w) (manifest_private w)
                          (Some (final o)) in
          match raised o with
          | Some e => stop w1 (trace o) e
          | None =>
              let '(t', lg) := prune [] (final o) in
              Outcome (World (manifest_public w) (manifest_private w) t')
                      (trace o ++ lg) None
          end
      end
  end end end end.

(** *** Vocabulary for the statements *)

(** Root-relative paths of the files below a directory whose own
    root-relative path, with a trailing separator, is [pre]. *)
Fixpoint rel_paths (pre : string) (t : tree) : list string :=
  match t with
  | Dir fnames dirs => map (String.append pre) fnames ++ rel_paths_dirs pre dirs
  end
with rel_paths_dirs (pre : string) (ds : forest) : list string :=
  match ds with
  | FNil => []
  | FCons name sub rest =>
      rel_paths (pre +:+ name +:+ "/") sub ++ rel_paths_dirs pre rest
  end.

(** The files present under build/assets. *)
Definition present (t : tree) : list string := rel_paths "" t.

Definition present_in (w : world) : list string :=
  match assets w with
  | Some t => present t
  | None => []
  end.

Fixpoint dir_names (ds : forest) : list string :=
  match ds with
  | FNil => []
  | FCons name _ rest => name :: dir_names rest
  end.

(** A directory entry name is not empty and has no separator in it. *)
Definition valid_name (n : string) : bool :=
  negb (bool_decide (n = "")) && negb (str_contains "/" n).

(** Entry names are valid and no two sub-directories share a name. *)
Fixpoint wf (t : tree) : bool :=
  match t with
  | Dir fnames dirs =>
      forallb valid_name fnames && wf_dirs dirs
      && bool_decide (NoDup (dir_names dirs))
  end
with wf_dirs (ds : forest) : bool :=
  match ds with
  | FNil => true
  | FCons name sub rest => valid_name name && wf sub && wf_dirs rest
  end.

(** Does any file remain somewhere below this directory? *)
Fixpoint has_file (t : tree) : bool :=
  match t with
  | Dir fnames dirs =>
      match fnames with
      | [] => has_file_dirs dirs
      | _ :: _ => true
      end
  end
with has_file_dirs (ds : forest) : bool :=
  match ds with
  | FNil => false
  | FCons _ sub rest => has_file sub || has_file_dirs rest
  end.

Fixpoint child (n : string) (ds : forest) : option tree :=
  match ds with
  | FNil => None
  | FCons name sub rest => if decide (name = n) then Some sub else child n rest
  end.

(** The directory reached from [t] through the components [ds]. *)
Fixpoint subdir_at (ds : list string) (t : tree) : option tree :=
  match ds with
  | [] => Some t
  | d :: ds' =>
      match t with
      | Dir _ dirs =>
          match child d dirs with
          | Some s => subdir_at ds' s
          | None => None
          end
      end
  end.

Definition fnames_of (t : tree) : list string :=
  match t with Dir fnames _ => fnames end.

(** [pre_of ds]: the root-relative prefix of what lies in directory [ds]. *)
Fixpoint pre_of (ds : list string) : string :=
  match ds with
  | [] => ""
  | d :: ds' => d +:+ "/" +:+ pre_of ds'
  end.

(** A removal order in which nothing at or below a directory is removed
    after the directory itself. *)
Fixpoint bottom_up (removed : list (list string)) : Prop :=
  match removed with
  | [] => True
  | p :: later => Forall (λ q, ¬ p `prefix_of` q) later ∧ bottom_up later
  end.

Definition is_rmdir (e : event) : bool :=
  match e with Rmdir _ => true | _ => false end.

Definition unlinked (lg : list event) : list string :=
  omap (λ e, match e with Unlink p => Some p | _ => None end) lg.
Definition rmdirs (lg : list event) : list (list string) :=
  omap (λ e, match e with Rmdir p => Some p | _ => None end) lg.

(** *** Sample inputs *)

Definition demo_tree : tree :=
  Dir ["keep.bin"; "junk.bin"]
      (FCons "a" (Dir ["x.bin"; "z.bin"] (FCons "empty" (Dir [] FNil) FNil))
      (FCons "old" (Dir ["gone.bin"] FNil)
       FNil)).

Definition demo_public : list string := ["keep.bin"; "a/x.bin"].
Definition demo_private : list string := ["a/y.bin"].

Definition demo_declared : gset string :=
  list_to_set demo_public ∪ list_to_set demo_private.

Definition demo_world : world :=
  World (listing demo_public) (listing demo_private) (Some demo_tree).

(** Every [unlink] goes through. *)
Definition permissive (fpath : string) : bool := true.

(** [build/assets/junk.bin] cannot be unlinked. *)
Definition junk_locked (fpath : string) : bool :=
  negb (bool_decide (fpath = "build/assets/junk.bin")).

(** The public manifest holds a JSON object, not a list. *)
Definition object_world : world :=
  World (Holds (JObj [("keep.bin", JNum "1")])) (listing demo_private)
        (Some demo_tree).

End Clean.

(** ** win_ci_install_prereqs *)

Module Prereqs.

Record world := World {
  meta_public : json_file;
  meta_private : json_file
}.

(** What a run leaves behind: the [get_target] calls made, in order, and
    the exception it ended with, if any. *)
Record outcome := Outcome {
  fetched : list string;
  raised : option exn
}.

Definition lib_dbg_win32 : string := "build/prefab/lib/windows/Debug_Win32".

Definition needed_targets : gset string :=
  {[ lib_dbg_win32 +:+ "/BallisticaKitGenericPlus.lib";
     lib_dbg_win32 +:+ "/BallisticaKitGenericPlus.pdb";
     "ballisticakit-windows/Generic/BallisticaKit.ico" ]}.

(** The condition of the [if] in the selection loop. *)
Definition generated_source (target : string) : bool :=
  startswith target "src/ballistica/" && str_contains "/mgen/" target.
Definition generated_module (target : string) : bool :=
  startswith target "src/assets/ba_data/python/"
  && str_contains "/_mgen/" target.
Definition wanted (target : string) : bool :=
  generated_source target || generated_module target.

(** [meta_public + meta_private], as the sequence the [for] iterates:
    two lists concatenate, two strings concatenate and are walked
    character by character, anything else is a [TypeError] (from [+] or
    from iterating a number). *)
Definition py_add_iter (a b : json) : result (list json) :=
  match a, b with
  | JArr x, JArr y => Ok (x ++ y)
  | JStr x, JStr y => Ok (JStr <$> chars (x +:+ y))
  | _, _ => Raise TypeError
  end.

(** [for target in ...: if ...: needed_targets.add(target)]; an element
    that is not a [str] has no [startswith]. *)
Fixpoint select (targets : list json) (needed : gset string)
  : result (gset string) :=
  match targets with
  | [] => Ok needed
  | JStr target :: rest =>
      select rest (if wanted target then {[target]} ∪ needed else needed)
  | _ :: _ => Raise AttributeError
  end.

Section fetch.
(** [efrocache.get_target]: [None] when it returns, [Some e] when it
    raises [e]. *)
Context (get_target : string → option exn).
(** The order in which Python happens to iterate a set. *)
Context (iter : gset string → list string).

(** [for target in needed_targets: get_target(target)] *)
Fixpoint fetch_each (targets : list string) : outcome :=
  match targets with
  | [] => Outcome [] None
  | target :: rest =>
      match get_target target with
      | Some e => Outcome [target] (Some e)
      | None =>
          let o := fetch_each rest in
          Outcome (target :: fetched o) (raised o)
      end
  end.

(** The command, with the initial value of [needed_targets] left open. *)
Definition install_prereqs (fixed : gset string) (w : world) : outcome :=
  match load_json "src/meta/.meta_manifest_public.json" (meta_public w) with
  | Raise e => Outcome [] (Some e)
  | Ok pub =>
  match load_json "src/meta/.meta_manifest_private.json"
                  (meta_private w) with
  | Raise e => Outcome [] (Some e)
  | Ok priv =>
  match py_add_iter pub priv with
  | Raise e => Outcome [] (Some e)
  | Ok targets =>
  match select targets fixed with
  | Raise e => Outcome [] (Some e)
  | Ok needed => fetch_each (iter needed)
  end end end end.

Definition win_ci_install_prereqs (w : world) : outcome :=
  install_prereqs needed_targets w.
End fetch.

(** The set handed to the fetch loop when both meta manifests are lists
    of strings. *)
Definition fetch_set (fixed : gset string) (pub priv : list string)
  : result (gset string) :=
  select (JStr <$> (pub ++ priv)) fixed.

(** The entries of a listing that pass the two pattern rules. *)
Definition selected (l : list string) : list string :=
  filter (λ t, wanted t = true) l.

(** *** Sample inputs *)

(** Two admissible iteration orders. *)
Definition sorted_order (s : gset string) : list string := elements s.
Definition reverse_order (s : gset string) : list string :=
  reverse (elements s).

(** A cache that serves everything, and one that cannot serve the icon. *)
Definition cache_up (target : string) : option exn := None.

Definition icon : string := "ballisticakit-windows/Generic/BallisticaKit.ico".

Definition icon_missing (target : string) : option exn :=
  if bool_decide (target = icon) then Some (OtherError "download failed")
  else None.

Definition binding_inc : string :=
  "src/ballistica/base/mgen/pyembed/binding_base.inc".

(** The icon is listed in the public meta manifest. *)
Definition icon_world : world := World (listing [icon]) (listing []).

(** A generated source listed in both meta manifests. *)
Definition shared_world : world :=
  World (listing [binding_inc; "docs/readme.md"]) (listing [binding_inc]).

(** The scenario of the design document. *)
Definition scenario_world : world :=
  World (listing ["gen/mgen/foo.h"; "docs/readme.md"]) (listing []).

End Prereqs.

(** ** update_cmake_prefab_lib *)

Module Stage.

(** A path that exists, with what [os.path.getmtime] returns for it.
    The time stamps are only ever compared; they are finite, so their
    order is that of a discrete clock. *)
Record entry := Entry {
  mtime : Z;
  content : string
}.

Inductive event :=
| Make (target : string)
| Makedirs (path : string)
| Cp (src dstdir : string).

Record state := State {
  files : gmap string entry;
  trace : list event
}.

(** The programs and library calls the command leans on. *)
Record env := Env {
  (** [batools.build.get_current_prefab_platform(wsl_gives_windows=False)] *)
  get_current_prefab_platform : result string;
  (** [make target] *)
  run_make : string → gmap string entry → gmap string entry * option exn;
  (** [os.makedirs(path, exist_ok=True)] *)
  os_makedirs : string → gmap string entry → gmap string entry * option exn;
  (** [cp src dstdir] *)
  run_cp : string → string → gmap string entry → gmap string entry * option exn
}.

Definition M (A : Type) : Type := state → result A * state.

#[global] Instance M_ret : MRet M := λ A a s, (Ok a, s).
#[global] Instance M_bind : MBind M := λ A B f m s,
  match m s with
  | (Ok a, s') => f a s'
  | (Raise e, s') => (Raise e, s')
  end.

Definition raise {A : Type} (e : exn) : M A := λ s, (Raise e, s).

Definition lift {A : Type} (r : result A) : M A := λ s, (r, s).

(** An action on the outside world: logged, then applied. *)
Definition effect (ev : event)
    (f : gmap string entry → gmap string entry * option exn) : M unit :=
  λ s,
    let '(fs', r) := f (files s) in
    let s' := State fs' (trace s ++ [ev]) in
    match r with
    | None => (Ok tt, s')
    | Some e => (Raise e, s')
    end.

(** How a command ends after an action that reported [r]: normally, or with
    the exception the action raised. *)
Definition outcome (r : option exn) : result unit :=
  match r with
  | None => Ok tt
  | Some e => Raise e
  end.

(** [os.path.exists(p)] *)
Definition path_exists (p : string) : M bool :=
  λ s, (Ok (bool_decide (is_Some (files s !! p))), s).

(** [os.path.getmtime(p)] *)
Definition getmtime (p : string) : M Z :=
  λ s,
    match files s !! p with
    | Some e => (Ok (mtime e), s)
    | None => (Raise (FileNotFoundError p), s)
    end.

Section stage.
Context (E : env).

Definition make (target : string) : M unit :=
  effect (Make target) (run_make E target).
Definition makedirs (path : string) : M unit :=
  effect (Makedirs path) (os_makedirs E path).
Definition cp (src dstdir : string) : M unit :=
  effect (Cp src dstdir) (run_cp E src dstdir).

(** Lines 254-267: copy the built library unless the one already in
    place is at least as recent. *)
Definition stage (target builddir : string) : M unit :=
  let libdir := os_path_join builddir "prefablib" in
  let libpath := os_path_join libdir "libballistica_plus.a" in
  time1 ← getmtime target;
  there ← path_exists libpath;
  update ← (if there : bool then
              time2 ← getmtime libpath;
              mret (negb (time1 <=? time2)%Z)
            else mret true);
  if update : bool then
    have_dir ← path_exists libdir;
    (if have_dir : bool then mret tt else makedirs libdir);;
    cp target libdir
  else mret tt.

Definition target_of (platform buildtype mode : string) : string :=
  let suffix := if bool_decide (buildtype = "server") then "_server"
                else "_gui" in
  "build/prefab/lib/" +:+ platform +:+ suffix +:+ "/" +:+ mode +:+ "/"
    +:+ "libballistica_plus.a".

Definition update_cmake_prefab_lib (argv : list string) : M unit :=
  if bool_decide (length argv ≠ 5) then
    raise (CleanError
             "Expected 3 args (standard/server, debug/release, build-dir)")
  else
    let buildtype := nth 2 argv "" in
    let mode := nth 3 argv "" in
    let builddir := nth 4 argv "" in
    if bool_decide (buildtype ∉ ({[ "standard"; "server" ]} : gset string))
    then raise (CleanError ("Invalid buildtype: " +:+ buildtype))
    else if bool_decide (mode ∉ ({[ "debug"; "release" ]} : gset string))
    then raise (CleanError ("Invalid mode: " +:+ mode))
    else
      platform ← lift (get_current_prefab_platform E);
      let target := target_of platform buildtype mode in
      make target;;
      stage target builddir.
End stage.

Definition is_cp (ev : event) : bool :=
  match ev with Cp _ _ => true | _ => false end.

(** Did the run invoke [cp]? *)
Definition copied (s : state) : bool := existsb is_cp (trace s).

(** *** Sample inputs *)

(** A machine on which [make] rebuilds the target at time 200, [makedirs]
    and [cp] succeed, and [cp] stamps the copy with time 300. *)
Definition demo_env : env :=
  Env (Ok "linux_x86_64")
      (λ target fs, (<[target := Entry 200 "built"]> fs, None))
      (λ path fs, (<[path := Entry 300 ""]> fs, None))
      (λ src dstdir fs,
         match fs !! src with
         | Some e =>
             (<[os_path_join dstdir "libballistica_plus.a"
                := Entry 300 (content e)]> fs, None)
         | None => (fs, Some (CalledProcessError ["cp"; src; dstdir]))
         end).

Definition demo_argv : list string :=
  ["pcommand"; "update_cmake_prefab_lib"; "standard"; "debug"; "out"].

Definition demo_target : string :=
  "build/prefab/lib/linux_x86_64_gui/debug/libballistica_plus.a".

(** Nothing staged yet. *)
Definition fresh_start : state := State ∅ [].

(** A staged library as recent as the one [make] produces. *)
Definition staged_start : state :=
  State {[ "out/prefablib" := Entry 100 "";
           "out/prefablib/libballistica_plus.a" := Entry 200 "built" ]} [].

(** A staged library older than the one [make] produces. *)
Definition stale_start : state :=
  State {[ "out/prefablib" := Entry 100 "";
           "out/prefablib/libballistica_plus.a" := Entry 150 "old" ]} [].

End Stage.

(** ** More vocabulary for the three commands above *)

(** The log lines and unlinks that go with deleting the files [fpaths]. *)
Definition announce (fpaths : list string) : list Clean.event :=
  flat_map (λ f, [Clean.Print (Clean.removing f); Clean.Unlink f]) fpaths.

Definition is_jstr (v : json) : bool :=
  match v with JStr _ => true | _ => false end.

(** Meta manifests the selection loop gets through: two lists of strings,
    or two strings. *)
Definition meta_usable (pub priv : json_file) : bool :=
  match pub, priv with
  | Holds (JArr x), Holds (JArr y) => forallb is_jstr (x ++ y)
  | Holds (JStr _), Holds (JStr _) => true
  | _, _ => false
  end.

Definition is_makedirs (ev : Stage.event) : bool :=
  match ev with Stage.Makedirs _ => true | _ => false end.

(** A machine on which [make] fails, and one on which it reports success
    without producing the target. *)
Definition failing_make_env : Stage.env :=
  Stage.Env (Ok "linux_x86_64")
            (λ target fs, (fs, Some (CalledProcessError ["make"; target])))
            (Stage.os_makedirs Stage.demo_env)
            (Stage.run_cp Stage.demo_env).

Definition idle_make_env : Stage.env :=
  Stage.Env (Ok "linux_x86_64")
            (λ target fs, (fs, None))
            (Stage.os_makedirs Stage.demo_env)
            (Stage.run_cp Stage.demo_env).

(** ** android_archive_unstripped_libs *)

Module Archive.

(** A [Path], kept as the parts it was built from: [Path(p, a, b)] for a
    path [p] is [p ++ [a; b]]. *)
Definition path : Type := list string.

Inductive arg :=
| Str (s : string)
| Pth (p : path).

Inductive event :=
| Run (argv : list arg) (cwd : option path)
| Mkdir (p : path)
| Print (msg : string).
(* [Run argv cwd]: subprocess.run(argv, cwd=cwd, check=True);
   [Mkdir p]: p.mkdir(parents=True, exist_ok=True). *)

Inductive failure :=
| CleanErr (msg : string)
| CalledProcessErr (argv : list arg)
| OSErr (e : exn).

Section archive.
Context {FS : Type}.

(** The file system and the programs, as far as the command sees them. *)
Record env := Env {
  path_exists : path → FS → bool;             (* p.exists() *)
  is_dir : path → FS → bool;                  (* p.is_dir() *)
  run : list arg → option path → FS → FS * bool;   (* true: exit status 0 *)
  mkdir : path → FS → FS * option exn;
  render : path → string;                     (* str(p) *)
  bld : string;                               (* Clr.BLD *)
  rst : string                                (* Clr.RST *)
}.

Record state := State {
  fs : FS;
  log : list event
}.

Definition M (A : Type) : Type := state → (failure + A) * state.

Definition ret {A : Type} (a : A) : M A := λ s, (inr a, s).
Definition bind {A B : Type} (m : M A) (k : A → M B) : M B :=
  λ s, match m s with
       | (inr a, s') => k a s'
       | (inl e, s') => (inl e, s')
       end.
Definition fail {A : Type} (e : failure) : M A := λ s, (inl e, s).

Context (E : env).

Definition exists_ (p : path) : M bool := λ s, (inr (path_exists E p (fs s)), s).
Definition is_dir_ (p : path) : M bool := λ s, (inr (is_dir E p (fs s)), s).

Definition subprocess_run (argv : list arg) (cwd : option path) : M unit :=
  λ s,
    let '(fs', ok) := run E argv cwd (fs s) in
    let s' := State fs' (log s ++ [Run argv cwd]) in
    if ok then (inr tt, s') else (inl (CalledProcessErr argv), s').

Definition mkdir_ (p : path) : M unit :=
  λ s,
    let '(fs', r) := mkdir E p (fs s) in
    let s' := State fs' (log s ++ [Mkdir p]) in
    match r with
    | None => (inr tt, s')
    | Some e => (inl (OSErr e), s')
    end.

Definition print (msg : string) : M unit :=
  λ s, (inr tt, State (fs s) (log s ++ [Print msg])).

Definition libname : string := "libmain".
Definition libext : string := ".so".

Definition abis : list (string * string) :=
  [("armeabi-v7a", "arm"); ("arm64-v8a", "arm64"); ("x86", "x86");
   ("x86_64", "x86-64")].

Definition dstname_of (abishort : string) : string :=
  libname +:+ "_" +:+ abishort +:+ libext.

(** The body of the [for] loop, for one ABI. *)
Definition archive_one (src dst : path) (abi abishort : string) : M unit :=
  let srcpath := src ++ [abi; libname +:+ libext] in
  let dstname := dstname_of abishort in
  let dstpath := dst ++ [dstname] in
  bind (exists_ srcpath) (λ there,
  if there : bool then
    bind (print ("Archiving unstripped library: " +:+ bld E +:+ dstname
                 +:+ rst E)) (λ _,
    bind (subprocess_run [Str "cp"; Pth srcpath; Pth dstpath] None) (λ _,
    bind (subprocess_run [Str "tar"; Str "-zcf"; Str (dstname +:+ ".tgz");
                          Str dstname] (Some dst)) (λ _,
    subprocess_run [Str "rm"; Pth dstpath] None)))
  else ret tt).

Fixpoint archive_each (src dst : path) (l : list (string * string)) : M unit :=
  match l with
  | [] => ret tt
  | (abi, abishort) :: rest =>
      bind (archive_one src dst abi abishort) (λ _, archive_each src dst rest)
  end.

Definition android_archive_unstripped_libs (argv : list string) : M unit :=
  if bool_decide (length argv ≠ 4) then
    fail (CleanErr "Expected 2 args; src-dir and dst-dir")
  else
    let src : path := [nth 2 argv ""] in
    let dst : path := [nth 3 argv ""] in
    bind (exists_ dst) (λ there,
    bind (if there : bool
          then subprocess_run [Str "rm"; Str "-rf"; Pth dst] None
          else ret tt) (λ _,
    bind (mkdir_ dst) (λ _,
    bind (is_dir_ src) (λ ok,
    if ok : bool then archive_each src dst abis
    else fail (CleanErr ("Source dir not found: '" +:+ render E src +:+ "'")))))).

(** What the loop logs for one ABI whose library is there. *)
Definition block (src dst : path) (a : string * string) : list event :=
  let dstname := dstname_of a.2 in
  [ Print ("Archiving unstripped library: " +:+ bld E +:+ dstname +:+ rst E);
    Run [Str "cp"; Pth (src ++ [a.1; libname +:+ libext]);
         Pth (dst ++ [dstname])] None;
    Run [Str "tar"; Str "-zcf"; Str (dstname +:+ ".tgz"); Str dstname]
        (Some dst);
    Run [Str "rm"; Pth (dst ++ [dstname])] None ].

End archive.

Arguments env FS : clear implicits.
Arguments state FS : clear implicits.

(** *** Sample machine: the file system is the set of paths that exist;
    [rm -rf] and [rm] remove, [mkdir] and [cp] add, [tar] adds the
    archive. *)
Definition demo_run (argv : list arg) (cwd : option path)
    (files : list path) : list path * bool :=
  match argv with
  | [Str "rm"; Str "-rf"; Pth p] =>
      (filter (λ q, ¬ p `prefix_of` q) files, true)
  | [Str "rm"; Pth p] => (filter (λ q, q ≠ p) files, true)
  | [Str "cp"; Pth p; Pth q] =>
      (if bool_decide (p ∈ files) then q :: files else files,
       bool_decide (p ∈ files))
  | [Str "tar"; Str "-zcf"; Str archive; Str member] =>
      match cwd with
      | Some d => ((d ++ [archive]) :: files, bool_decide (d ++ [member] ∈ files))
      | None => (files, false)
      end
  | _ => (files, false)
  end.

Definition demo_env : env (list path) :=
  Env (λ p files, bool_decide (p ∈ files))
      (λ p files, bool_decide (p ∈ files))
      demo_run
      (λ p files, (p :: files, None))
      (λ p, match p with [s] => s | _ => "" end)
      "" "".


Definition demo_argv : list string :=
  ["pcommand"; "android_archive_unstripped_libs"; "build/libs"; "build/archive"].

(** Two of the four libraries have been built. *)
Definition demo_files : list path :=
  [ ["build/libs"]; ["build/libs"; "arm64-v8a"; "libmain.so"];
    ["build/libs"; "x86_64"; "libmain.so"]; ["build/archive"];
    ["build/archive"; "stale.tgz"] ].

(** No source directory. *)
Definition nosrc_files : list path :=
  [ ["build/archive"]; ["build/archive"; "libmain_arm.so.tgz"] ].

End Archive.

(** ** py_examine *)

Module Examine.

Inductive failure :=
| SystemExit (code : Z)
| ValueError (text : string)
| Raised (e : exn).

Inductive event :=
| Print (msg : string)
| Chdir
| PyExamine (filename : string) (line column : Z) (selection : option string)
            (operation : string).
(* [Chdir]: os.chdir(PROJROOT); [PyExamine ...]: the call of
   efrotools.py_examine. *)

(** [sys.path], and what the command has printed and called. *)
Record state := State {
  sys_path : list string;
  log : list event
}.

Record env := Env {
  py_int : string → option Z;     (* int(s); None: ValueError *)
  dirname : string → string;      (* os.path.dirname *)
  abspath : string → string;      (* os.path.abspath, from the project root *)
  examine : string → Z → Z → option string → string → option exn
}.

(** [if d not in sys.path: sys.path.append(d)] *)
Definition add_path (d : string) (sp : list string) : list string :=
  if bool_decide (d ∈ sp) then sp else sp ++ [d].

Definition scriptsdir (E : env) (argv : list string) : string :=
  abspath E (os_path_join (dirname E (nth 0 argv ""))
                          "../src/assets/ba_data/python").

Definition toolsdir (E : env) (argv : list string) : string :=
  abspath E (os_path_join (dirname E (nth 0 argv "")) "../tools").

Definition py_examine (E : env) (argv : list string) (s : state)
  : (failure + unit) * state :=
  if bool_decide (length argv ≠ 7) then
    (inl (SystemExit 255),
     State (sys_path s) (log s ++ [Print "ERROR: expected 7 args"]))
  else
    let filename := nth 2 argv "" in
    match py_int E (nth 3 argv "") with
    | None => (inl (ValueError (nth 3 argv "")), s)
    | Some line =>
    match py_int E (nth 4 argv "") with
    | None => (inl (ValueError (nth 4 argv "")), s)
    | Some column =>
        let selection :=
          if bool_decide (nth 5 argv "" = "") then None
          else Some (nth 5 argv "") in
        let operation := nth 6 argv "" in
        let sp := add_path (toolsdir E argv)
                    (add_path (scriptsdir E argv) (sys_path s)) in
        let s' := State sp
                    (log s ++ [Chdir; PyExamine filename line column
                                        selection operation]) in
        match examine E filename line column selection operation with
        | None => (inr tt, s')
        | Some e => (inl (Raised e), s')
        end
    end end.

Definition is_call (ev : event) : bool :=
  match ev with Print _ => false | _ => true end.

(** *** Sample machine: decimal digits only for [int], the directory part
    up to the last separator, paths left as they are. *)
Fixpoint digits (acc : Z) (s : string) : option Z :=
  match s with
  | EmptyString => Some acc
  | String c s' =>
      let n := Ascii.nat_of_ascii c in
      if bool_decide (48 ≤ n ≤ 57)%nat
      then digits (10 * acc + Z.of_nat (n - 48)%nat)%Z s'
      else None
  end.

Definition demo_int (s : string) : option Z :=
  match s with
  | EmptyString => None
  | _ => digits 0 s
  end.

Definition demo_env : env :=
  Env demo_int (λ _, "tools") (λ p, "/proj/" +:+ p) (λ _ _ _ _ _, None).

Definition demo_argv : list string :=
  ["tools/pcommand"; "py_examine"; "src/x.py"; "12"; "4"; ""; "sig"].

Definition demo_state : state := State ["/usr/lib/python3"] [].

End Examine.

(** ** spinoff_check_submodule_parent *)

Module Spinoff.

(** What is at a path: a file or directory, or a symbolic link with what
    it leads to ([None]: nowhere, a dangling link). *)
Inductive real := RFile | RDir.

Inductive node :=
| Real (r : real)
| Link (target : option real).

(** [os.path.exists]: follows links. *)
Definition path_exists (fs : gmap string node) (p : string) : bool :=
  match fs !! p with
  | Some (Real _) | Some (Link (Some _)) => true
  | _ => false
  end.

(** [os.path.islink] *)
Definition islink (fs : gmap string node) (p : string) : bool :=
  match fs !! p with
  | Some (Link _) => true
  | _ => false
  end.

(** [os.path.isdir]: follows links. *)
Definition isdir (fs : gmap string node) (p : string) : bool :=
  match fs !! p with
  | Some (Real RDir) | Some (Link (Some RDir)) => true
  | _ => false
  end.

Definition not_enabled : string :=
  "This does not appear to be a spinoff-enabled project.".
Definition is_parent : string :=
  "This project is a spinoff parent; we require a dst.".

Definition nl : string := String (Ascii.ascii_of_nat 10) EmptyString.

Definition no_submodule : string :=
  "This project is not using a submodule for its parent." +:+ nl
  +:+ "To set one up, run `tools/spinoff add-submodule-parent`".

Definition spinoff_check_submodule_parent (fs : gmap string node)
  : result unit :=
  if negb (path_exists fs "tools/spinoff") then Raise (CleanError not_enabled)
  else if negb (islink fs "tools/spinoff") then Raise (CleanError is_parent)
  else if negb (isdir fs "submodules/ballistica")
  then Raise (CleanError no_submodule)
  else Ok tt.

End Spinoff.

(** ** gen_monolithic_register_modules: the generated declarations

    The two blocks of code the command substitutes into its header
    template (lines 28-37); the template itself and [textwrap] are left
    out. *)

Module Gen.

Record featureset := FeatureSet {
  name_python_binary_module : string;
  has_native_python_module : bool
}.

(** [a <= b] on [str]. *)
Definition str_le (a b : string) : Prop := String.leb a b = true.

#[global] Instance str_le_dec (a b : string) : Decision (str_le a b).
Proof. unfold str_le. apply _. Defined.

Definition nl : string := String (Ascii.ascii_of_nat 10) EmptyString.
Definition dq : string := String (Ascii.ascii_of_nat 34) EmptyString.

(** [sep.join(l)] *)
Fixpoint str_join (sep : string) (l : list string) : string :=
  match l with
  | [] => ""
  | x :: rest =>
      match rest with
      | [] => x
      | _ :: _ => x +:+ sep +:+ str_join sep rest
      end
  end.

(** [sorted(f.name_python_binary_module for f in featuresets)], after the
    filter on [has_native_python_module]. *)
Definition pymodulenames (featuresets : list featureset) : list string :=
  merge_sort str_le
    (name_python_binary_module
       <$> filter (λ f, has_native_python_module f = true) featuresets).

Definition extern_line (n : string) : string :=
  "auto PyInit_" +:+ n +:+ "() -> PyObject*;".

Definition register_line (n : string) : string :=
  "PyImport_AppendInittab(" +:+ dq +:+ n +:+ dq +:+ ", &PyInit_" +:+ n
  +:+ ");".

Definition extern_def_code (featuresets : list featureset) : string :=
  str_join nl (extern_line <$> pymodulenames featuresets).

Definition py_register_code (featuresets : list featureset) : string :=
  str_join nl (register_line <$> pymodulenames featuresets).

(** *** Sample input *)
Definition demo_sets : list featureset :=
  [ FeatureSet "_bascenev1" true; FeatureSet "_batemplatefs" false;
    FeatureSet "_babase" true; FeatureSet "_bauiv1" true ].

Definition demo_sets_shuffled : list featureset :=
  [ FeatureSet "_bauiv1" true; FeatureSet "_babase" true;
    FeatureSet "_batemplatefs" false; FeatureSet "_bascenev1" true ].

End Gen.

(** * Facts *)

(** ** Strings and paths *)

Lemma append_cons (x : Ascii.ascii) (a b : string) :
  String x a +:+ b = String x (a +:+ b).
Proof. reflexivity. Qed.

Lemma append_assoc (a b c : string) : (a +:+ b) +:+ c = a +:+ (b +:+ c).
Proof.
  induction a as [|x a IH]; [done |]. rewrite !append_cons. by f_equal.
Qed.

Lemma append_nil_r (a : string) : a +:+ "" = a.
Proof.
  induction a as [|x a IH]; [done |]. rewrite append_cons. by f_equal.
Qed.

Lemma str_prefix_nil (s : string) : String.prefix "" s = true.
Proof. by destruct s. Qed.

Lemma no_lead_sep_app (a b : string) :
  no_lead_sep a → (a = "" → no_lead_sep b) → no_lead_sep (a +:+ b).
Proof.
  unfold no_lead_sep, startswith. destruct a as [|x a]; [by auto |].
  rewrite append_cons. cbn [String.prefix]. intros Ha _.
  destruct (Ascii.ascii_dec _ x); [by rewrite str_prefix_nil in Ha | done].
Qed.

Lemma contains_false_head (p : string) (c : Ascii.ascii) (s : string) :
  str_contains p (String c s) = false →
  String.prefix p (String c s) = false ∧ str_contains p s = false.
Proof. simpl. intros H. by apply orb_false_iff in H. Qed.

Lemma valid_name_inv (n : string) :
  Clean.valid_name n = true →
  n ≠ "" ∧ no_lead_sep n ∧ endswith_sep n = false.
Proof.
  unfold Clean.valid_name. rewrite andb_true_iff, !negb_true_iff.
  intros [Hne Hc]. apply bool_decide_eq_false in Hne.
  split; [done |]. split.
  - unfold no_lead_sep, startswith. destruct n as [|c n]; [done |].
    by apply contains_false_head in Hc as [? _].
  - clear Hne. induction n as [|c n IH]; [done |].
    apply contains_false_head in Hc as [Hp Hc].
    destruct n as [|d n].
    + simpl. apply bool_decide_eq_false. intros E. rewrite E in Hp.
      by vm_compute in Hp.
    + simpl in *. by apply IH.
Qed.

Lemma endswith_sep_app (a b : string) :
  b ≠ "" → endswith_sep (a +:+ b) = endswith_sep b.
Proof.
  intros Hb. induction a as [|x a IH]; [done |].
  rewrite append_cons. simpl. rewrite <- IH.
  destruct (a +:+ b) as [|y r] eqn:E; [| done].
  destruct a; [by destruct Hb | by rewrite append_cons in E].
Qed.

Lemma in_step_top : in_step "build/assets" "".
Proof. by split. Qed.

Lemma join_in_step (root pre n : string) :
  in_step root pre → no_lead_sep n →
  os_path_join root n = "build/assets/" +:+ pre +:+ n.
Proof.
  intros [Hne Hsep Heq _] Hn. unfold os_path_join.
  rewrite Hn, Hsep, orb_false_r.
  rewrite bool_decide_eq_false_2 by done.
  by rewrite <- !append_assoc, Heq.
Qed.

Lemma join_top (p : string) :
  no_lead_sep p → os_path_join "build/assets" p = "build/assets/" +:+ p.
Proof. intros Hp. by rewrite (join_in_step _ "" _ in_step_top Hp). Qed.

Lemma in_step_child (root pre n : string) :
  in_step root pre → Clean.valid_name n = true →
  in_step (os_path_join root n) (pre +:+ n +:+ "/").
Proof.
  intros Hs Hn. destruct (valid_name_inv n Hn) as (Hne & Hlead & Hend).
  rewrite (join_in_step _ _ _ Hs Hlead).
  split.
  - by rewrite append_cons.
  - rewrite <- append_assoc. by rewrite endswith_sep_app.
  - by rewrite !append_assoc.
  - apply no_lead_sep_app; [apply Hs |]. intros _.
    by apply no_lead_sep_app.
Qed.

(** ** The walk, directory by directory *)

Scheme tree_mut := Induction for Clean.tree Sort Prop
  with forest_mut := Induction for Clean.forest Sort Prop.
Combined Scheme tree_forest_ind from tree_mut, forest_mut.

(** Unfolding equations of the mutually recursive definitions. *)
Section tree_equations.
Import Clean.

Lemma rel_paths_eq (pre : string) (fnames : list string) (dirs : forest) :
  rel_paths pre (Dir fnames dirs) =
  map (String.append pre) fnames ++ rel_paths_dirs pre dirs.
Proof. reflexivity. Qed.

Lemma rel_paths_dirs_cons (pre name : string) (sub : tree) (rest : forest) :
  rel_paths_dirs pre (FCons name sub rest) =
  rel_paths (pre +:+ name +:+ "/") sub ++ rel_paths_dirs pre rest.
Proof. reflexivity. Qed.

Lemma wf_eq (fnames : list string) (dirs : forest) :
  wf (Dir fnames dirs) = true ↔
  forallb valid_name fnames = true ∧ wf_dirs dirs = true
  ∧ NoDup (dir_names dirs).
Proof.
  change (wf (Dir fnames dirs))
    with (forallb valid_name fnames && wf_dirs dirs
          && bool_decide (NoDup (dir_names dirs))).
  rewrite !andb_true_iff, bool_decide_eq_true. tauto.
Qed.

Lemma wf_dirs_cons (name : string) (sub : tree) (rest : forest) :
  wf_dirs (FCons name sub rest) = true ↔
  valid_name name = true ∧ wf sub = true ∧ wf_dirs rest = true.
Proof.
  change (wf_dirs (FCons name sub rest))
    with (valid_name name && wf sub && wf_dirs rest).
  rewrite !andb_true_iff. tauto.
Qed.

End tree_equations.

Section walk_facts.
Import Clean.
Context (unlink_ok : string → bool) (manifest : gset string).

#[local] Abbreviation unlink_loop := (unlink_loop unlink_ok manifest).
#[local] Abbreviation sweep := (sweep unlink_ok manifest).
#[local] Abbreviation walk := (walk unlink_ok manifest).
#[local] Abbreviation walk_dirs := (walk_dirs unlink_ok manifest).

Lemma walk_eq (root : string) (fnames : list string) (dirs : forest) :
  walk root (Dir fnames dirs) =
  match raised (unlink_loop root fnames) with
  | Some e =>
      Outcome (Dir (final (unlink_loop root fnames)) dirs)
              (trace (unlink_loop root fnames)) (Some e)
  | None =>
      Outcome (Dir (final (unlink_loop root fnames))
                   (final (walk_dirs root dirs)))
              (trace (unlink_loop root fnames) ++ trace (walk_dirs root dirs))
              (raised (walk_dirs root dirs))
  end.
Proof. reflexivity. Qed.

Lemma walk_dirs_cons (root name : string) (sub : tree) (rest : forest) :
  walk_dirs root (FCons name sub rest) =
  match raised (walk (os_path_join root name) sub) with
  | Some e =>
      Outcome (FCons name (final (walk (os_path_join root name) sub)) rest)
              (trace (walk (os_path_join root name) sub)) (Some e)
  | None =>
      Outcome (FCons name (final (walk (os_path_join root name) sub))
                     (final (walk_dirs root rest)))
              (trace (walk (os_path_join root name) sub)
               ++ trace (walk_dirs root rest))
              (raised (walk_dirs root rest))
  end.
Proof. reflexivity. Qed.

Lemma drop_build_assets (p : string) :
  str_drop 13 ("build/assets/" +:+ p) = p.
Proof. reflexivity. Qed.

(** A pass over a concatenation is the pass over the first part and, if
    that went through, the pass over the second. *)
Lemma sweep_app (l1 l2 : list string) :
  sweep (l1 ++ l2) =
  match raised (sweep l1) with
  | Some e => Outcome (final (sweep l1) ++ l2) (trace (sweep l1)) (Some e)
  | None =>
      Outcome (final (sweep l1) ++ final (sweep l2))
              (trace (sweep l1) ++ trace (sweep l2)) (raised (sweep l2))
  end.
Proof.
  induction l1 as [|p l1 IH]; simpl.
  - by destruct (sweep l2).
  - destruct (decide (p ∈ manifest)); [| destruct (unlink_ok _)]; simpl;
      rewrite ?IH; by destruct (raised (sweep l1)).
Qed.

(** The loop over one directory's files is the pass over their
    root-relative paths. *)
Lemma unlink_loop_sweep (root pre : string) (fnames : list string) :
  in_step root pre → forallb valid_name fnames = true →
  trace (unlink_loop root fnames) = trace (sweep (map (String.append pre) fnames))
  ∧ raised (unlink_loop root fnames)
    = raised (sweep (map (String.append pre) fnames))
  ∧ map (String.append pre) (final (unlink_loop root fnames))
    = final (sweep (map (String.append pre) fnames)).
Proof.
  intros Hs. induction fnames as [|f fnames IH]; [done |].
  intros Hv. apply andb_true_iff in Hv as [Hf Hv].
  destruct (IH Hv) as (IHt & IHr & IHf). clear IH.
  destruct (valid_name_inv f Hf) as (_ & Hlead & _).
  cbn [Clean.unlink_loop Clean.sweep map].
  rewrite (join_in_step root pre f Hs Hlead), drop_build_assets.
  destruct (decide (pre +:+ f ∈ manifest)); [| destruct (unlink_ok _)];
    cbn [trace raised final map]; rewrite ?IHt, ?IHr, ?IHf; done.
Qed.

Lemma walk_sweep_both :
  (∀ t root pre, in_step root pre → wf t = true →
     trace (walk root t) = trace (sweep (rel_paths pre t))
     ∧ raised (walk root t) = raised (sweep (rel_paths pre t))
     ∧ rel_paths pre (final (walk root t)) = final (sweep (rel_paths pre t)))
  ∧
  (∀ ds root pre, in_step root pre → wf_dirs ds = true →
     trace (walk_dirs root ds) = trace (sweep (rel_paths_dirs pre ds))
     ∧ raised (walk_dirs root ds) = raised (sweep (rel_paths_dirs pre ds))
     ∧ rel_paths_dirs pre (final (walk_dirs root ds))
       = final (sweep (rel_paths_dirs pre ds))).
Proof.
  apply tree_forest_ind.
  - intros fnames dirs IHd root pre Hs Hwf.
    apply wf_eq in Hwf as (Hf & Hd & _).
    destruct (unlink_loop_sweep root pre fnames Hs Hf) as (Ht & Hr & Hfin).
    destruct (IHd root pre Hs Hd) as (IHt & IHr & IHf).
    rewrite walk_eq, rel_paths_eq, sweep_app, <- Hr.
    destruct (raised (unlink_loop root fnames)); cbn [trace raised final];
      rewrite ?rel_paths_eq; by rewrite ?Ht, ?Hfin, ?IHt, ?IHr, ?IHf.
  - done.
  - intros name sub IHs rest IHr root pre Hs Hwf.
    apply wf_dirs_cons in Hwf as (Hn & Hsub & Hrest).
    destruct (IHs _ _ (in_step_child root pre name Hs Hn) Hsub)
      as (Ht & Hr & Hfin).
    destruct (IHr root pre Hs Hrest) as (IHt & IHr' & IHf).
    rewrite walk_dirs_cons, rel_paths_dirs_cons, sweep_app, <- Hr.
    destruct (raised (walk _ sub)); cbn [trace raised final];
      rewrite ?rel_paths_dirs_cons; by rewrite ?Ht, ?Hfin, ?IHt, ?IHr', ?IHf.
Qed.

Lemma walk_sweep (t : tree) :
  wf t = true →
  trace (walk "build/assets" t) = trace (sweep (present t))
  ∧ raised (walk "build/assets" t) = raised (sweep (present t))
  ∧ present (final (walk "build/assets" t)) = final (sweep (present t)).
Proof. apply (proj1 walk_sweep_both t _ _ in_step_top). Qed.

(** *** What the pass does *)

Lemma sweep_no_rmdir (l : list string) : rmdirs (trace (sweep l)) = [].
Proof.
  induction l as [|p l IH]; [done |]. simpl.
  destruct (decide (p ∈ manifest)); [| destruct (unlink_ok _)]; done.
Qed.

Lemma sweep_all_ok (l : list string) :
  (∀ p, p ∈ l → p ∉ manifest → unlink_ok (at_root p) = true) →
  raised (sweep l) = None
  ∧ final (sweep l) = filter (.∈ manifest) l
  ∧ unlinked (trace (sweep l)) = at_root <$> filter (.∉ manifest) l.
Proof.
  induction l as [|p l IH]; [done |]. intros Hok.
  destruct IH as (IHr & IHf & IHu).
  { intros q Hq. apply Hok. by right. }
  simpl. rewrite !filter_cons.
  destruct (decide (p ∈ manifest)) as [Hin|Hout].
  - rewrite decide_False by (intros H; by apply H). simpl. by rewrite IHf.
  - rewrite (decide_True _ _ Hout).
    fold (at_root p). rewrite (Hok p) by (done || by left). simpl.
    by rewrite IHu.
Qed.

Lemma sweep_raised_none (l : list string) :
  raised (sweep l) = None →
  final (sweep l) = filter (.∈ manifest) l.
Proof.
  induction l as [|p l IH]; [done |]. simpl. rewrite filter_cons.
  destruct (decide (p ∈ manifest)); [| destruct (unlink_ok _)]; simpl;
    intros H; by rewrite ?IH.
Qed.

Lemma sweep_first_failure (l before after : list string) (p : string) :
  filter (.∉ manifest) l = before ++ p :: after →
  (∀ q, q ∈ before → unlink_ok (at_root q) = true) →
  unlink_ok (at_root p) = false →
  raised (sweep l) = Some (OSError (at_root p))
  ∧ unlinked (trace (sweep l)) = at_root <$> before
  ∧ (∀ q, q ∈ p :: after → q ∈ final (sweep l))
  ∧ (∀ q, q ∈ l → q ∈ manifest → q ∈ final (sweep l)).
Proof.
  revert before. induction l as [|x l IH]; intros before Hsplit Hbefore Hp.
  { by destruct before. }
  rewrite filter_cons in Hsplit. simpl.
  destruct (decide (x ∈ manifest)) as [Hin|Hout].
  - rewrite decide_False in Hsplit by (intros H; by apply H).
    destruct (IH before Hsplit Hbefore Hp) as (Hr & Hu & Hrest & Hkeep).
    simpl. repeat split; [done | done | |].
    + intros q Hq. right. by apply Hrest.
    + intros q Hq Hm. apply elem_of_cons in Hq as [->|Hq]; [by left |].
      right. by apply Hkeep.
  - rewrite (decide_True _ _ Hout) in Hsplit.
    destruct before as [|b before]; simpl in Hsplit.
    + injection Hsplit as -> Hafter. fold (at_root p). rewrite Hp. simpl.
      repeat split; [| by intros q Hq ?; done].
      intros q Hq. apply elem_of_cons in Hq as [->|Hq]; [by left |]. right.
      rewrite <- Hafter in Hq. by apply list_elem_of_filter in Hq as [_ ?].
    + injection Hsplit as -> Hsplit. fold (at_root b).
      rewrite (Hbefore b) by by left.
      destruct (IH before Hsplit) as (Hr & Hu & Hrest & Hkeep);
        [by intros q Hq; apply Hbefore; right | done |].
      simpl. repeat split; [done | by rewrite Hu | done |].
      intros q Hq Hm. apply elem_of_cons in Hq as [->|Hq]; [done |].
      by apply Hkeep.
Qed.
End walk_facts.

(** ** Pruning *)

Section prune_facts.
Import Clean.

Lemma prune_eq (below : list string) (fnames : list string) (dirs : forest) :
  prune below (Dir fnames dirs) =
  match fnames, (prune_dirs below dirs).1 with
  | [], FNil => (None, (prune_dirs below dirs).2 ++ [Rmdir below])
  | _, _ => (Some (Dir fnames (prune_dirs below dirs).1),
             (prune_dirs below dirs).2)
  end.
Proof.
  change (prune below (Dir fnames dirs))
    with (let '(dirs', lg) := prune_dirs below dirs in
          match fnames, dirs' with
          | [], FNil => (None, lg ++ [Rmdir below])
          | _, _ => (Some (Dir fnames dirs'), lg)
          end).
  by destruct (prune_dirs below dirs).
Qed.

Lemma prune_dirs_cons (below : list string) (name : string) (sub : tree)
    (rest : forest) :
  prune_dirs below (FCons name sub rest) =
  (match (prune (below ++ [name]) sub).1 with
   | Some s => FCons name s (prune_dirs below rest).1
   | None => (prune_dirs below rest).1
   end,
   (prune (below ++ [name]) sub).2 ++ (prune_dirs below rest).2).
Proof.
  change (prune_dirs below (FCons name sub rest))
    with (let '(sub', lg1) := prune (below ++ [name]) sub in
          let '(rest', lg2) := prune_dirs below rest in
          (match sub' with
           | Some s => FCons name s rest'
           | None => rest'
           end, lg1 ++ lg2)).
  by destruct (prune _ sub), (prune_dirs below rest).
Qed.

Lemma has_file_eq (fnames : list string) (dirs : forest) :
  has_file (Dir fnames dirs) =
  match fnames with [] => has_file_dirs dirs | _ :: _ => true end.
Proof. reflexivity. Qed.

Lemma has_file_dirs_cons (name : string) (sub : tree) (rest : forest) :
  has_file_dirs (FCons name sub rest) = has_file sub || has_file_dirs rest.
Proof. reflexivity. Qed.

(** Pruning never touches a file. *)
Lemma prune_keeps_files_both :
  (∀ t below pre,
     rel_paths pre t =
     match (prune below t).1 with
     | Some t' => rel_paths pre t'
     | None => []
     end)
  ∧ (∀ ds below pre,
       rel_paths_dirs pre ds = rel_paths_dirs pre (prune_dirs below ds).1).
Proof.
  apply tree_forest_ind.
  - intros fnames dirs IH below pre. rewrite prune_eq, rel_paths_eq.
    rewrite (IH below pre).
    destruct fnames, (prune_dirs below dirs).1; done.
  - done.
  - intros name sub IHs rest IHr below pre.
    rewrite prune_dirs_cons, rel_paths_dirs_cons. cbn [fst].
    rewrite (IHs (below ++ [name])), (IHr below pre).
    by destruct (prune _ sub).1.
Qed.

(** A directory goes exactly when no file is left anywhere below it. *)
Lemma prune_gone_both :
  (∀ t below, (prune below t).1 = None ↔ has_file t = false)
  ∧ (∀ ds below, (prune_dirs below ds).1 = FNil ↔ has_file_dirs ds = false).
Proof.
  apply tree_forest_ind.
  - intros fnames dirs IH below. rewrite prune_eq, has_file_eq.
    specialize (IH below).
    destruct fnames, (prune_dirs below dirs).1; cbn [fst]; [| | done..].
    + split; intros _; [by apply IH | done].
    + split; [done |]. intros H. by apply IH in H.
  - done.
  - intros name sub IHs rest IHr below.
    rewrite prune_dirs_cons, has_file_dirs_cons, orb_false_iff. cbn [fst].
    specialize (IHs (below ++ [name])). specialize (IHr below).
    destruct (prune _ sub).1.
    + split; [done |]. intros [H _]. apply IHs in H. done.
    + rewrite IHr. split; [| tauto]. intros H. split; [| done]. by apply IHs.
Qed.

Lemma child_none (d : string) (ds : forest) :
  d ∉ dir_names ds → child d ds = None.
Proof.
  induction ds as [|n sub rest IH]; [done |]. cbn [dir_names child].
  intros H. apply not_elem_of_cons in H as [Hne H].
  rewrite decide_False by done. by apply IH.
Qed.

Lemma child_in (d : string) (ds : forest) (c : tree) :
  child d ds = Some c → d ∈ dir_names ds.
Proof.
  induction ds as [|n sub rest IH]; [done |]. cbn [dir_names child].
  destruct (decide (n = d)) as [->|]; [by left |]. right. by apply IH.
Qed.

Lemma prune_dirs_names (ds : forest) (below : list string) (d : string) :
  d ∈ dir_names (prune_dirs below ds).1 → d ∈ dir_names ds.
Proof.
  induction ds as [|n sub rest IH]; [done |].
  rewrite prune_dirs_cons. cbn [fst dir_names].
  destruct (prune _ sub).1; cbn [dir_names]; intros H.
  - apply elem_of_cons in H as [->|H]; [by left | right; by apply IH].
  - right. by apply IH.
Qed.

(** Looking a child up after pruning is pruning the child. *)
Lemma child_prune_dirs (d : string) (ds : forest) (below : list string) :
  NoDup (dir_names ds) →
  child d (prune_dirs below ds).1 =
  child d ds ≫= λ c, (prune (below ++ [d]) c).1.
Proof.
  induction ds as [|n sub rest IH]; [done |].
  cbn [dir_names]. intros Hnd. apply NoDup_cons in Hnd as [Hn Hnd].
  rewrite prune_dirs_cons. cbn [fst child].
  destruct (decide (n = d)) as [->|Hne].
  - cbn [mbind option_bind]. destruct (prune _ sub).1 as [s|].
    + cbn [child]. by rewrite decide_True.
    + apply child_none. intros H. by apply prune_dirs_names in H.
  - rewrite <- (IH Hnd). destruct (prune _ sub).1; [| done].
    cbn [child]. by rewrite decide_False.
Qed.

Lemma wf_child (d : string) (ds : forest) (c : tree) :
  wf_dirs ds = true → child d ds = Some c →
  wf c = true ∧ valid_name d = true.
Proof.
  induction ds as [|n sub rest IH]; [done |].
  intros Hwf. apply wf_dirs_cons in Hwf as (Hn & Hsub & Hrest).
  cbn [child]. destruct (decide (n = d)) as [->|].
  - intros [= ->]. done.
  - by apply IH.
Qed.

Lemma has_file_child (d : string) (ds : forest) (c : tree) :
  child d ds = Some c → has_file c = true → has_file_dirs ds = true.
Proof.
  induction ds as [|n sub rest IH]; [done |].
  cbn [child]. rewrite has_file_dirs_cons, orb_true_iff.
  destruct (decide (n = d)) as [->|].
  - intros [= ->]. by left.
  - intros ??. right. by apply IH.
Qed.

Lemma has_file_subdir (ds : list string) (t s : tree) :
  subdir_at ds t = Some s → has_file s = true → has_file t = true.
Proof.
  revert t. induction ds as [|d ds IH]; intros t.
  - by intros [= ->].
  - destruct t as [fnames dirs]. cbn [subdir_at].
    destruct (child d dirs) as [c|] eqn:Hc; [| done].
    intros Hs Hf. rewrite has_file_eq. destruct fnames; [| done].
    apply (has_file_child d dirs c Hc). by apply (IH c).
Qed.

(** Which directories are there after pruning. *)
Lemma prune_subdir (ds : list string) (t s : tree) (below : list string) :
  wf t = true → subdir_at ds t = Some s →
  (is_Some ((prune below t).1 ≫= subdir_at ds) ↔ has_file s = true)
  ∧ (∀ s', (prune below t).1 ≫= subdir_at ds = Some s' →
           fnames_of s' = fnames_of s).
Proof.
  revert t below. induction ds as [|d ds IH]; intros t below Hwf.
  - intros [= ->]. cbn [subdir_at].
    destruct (prune below s).1 as [t'|] eqn:Hp.
    + cbn [mbind option_bind]. split.
      * split; [| by eauto]. intros _.
        destruct (has_file s) eqn:Hf; [done |].
        apply (proj1 prune_gone_both s below) in Hf. congruence.
      * intros s' [= <-]. destruct s as [fnames dirs].
        rewrite prune_eq in Hp.
        destruct fnames, (prune_dirs below dirs).1; cbn [fst] in Hp;
          by simplify_eq.
    + apply (proj1 prune_gone_both) in Hp. rewrite Hp.
      cbn [mbind option_bind]. split; [| done].
      split; [by intros [? ?] | done].
  - destruct t as [fnames dirs]. cbn [subdir_at].
    destruct (child d dirs) as [c|] eqn:Hc; [| done].
    intros Hs. apply wf_eq in Hwf as (_ & Hwd & Hnd).
    destruct (wf_child d dirs c Hwd Hc) as [Hwc _].
    destruct (IH c (below ++ [d]) Hwc Hs) as [IH1 IH2].
    destruct (prune below (Dir fnames dirs)).1 as [t'|] eqn:Hp.
    + assert (t' = Dir fnames (prune_dirs below dirs).1) as ->.
      { rewrite prune_eq in Hp.
        destruct fnames, (prune_dirs below dirs).1; cbn [fst] in Hp;
          by simplify_eq. }
      cbn [mbind option_bind subdir_at].
      rewrite (child_prune_dirs d dirs below Hnd), Hc.
      cbn [mbind option_bind].
      destruct (prune (below ++ [d]) c).1; done.
    + cbn [mbind option_bind]. split; [| done].
      apply (proj1 prune_gone_both) in Hp.
      split; [by intros [? ?] |]. intros Hf.
      pose proof (has_file_subdir (d :: ds) (Dir fnames dirs) s) as H.
      cbn [subdir_at] in H. rewrite Hc in H. specialize (H Hs Hf).
      congruence.
Qed.

Lemma has_file_present_both :
  (∀ t pre, has_file t = true ↔ rel_paths pre t ≠ [])
  ∧ (∀ ds pre, has_file_dirs ds = true ↔ rel_paths_dirs pre ds ≠ []).
Proof.
  apply tree_forest_ind.
  - intros fnames dirs IH pre. rewrite has_file_eq, rel_paths_eq.
    destruct fnames; [apply IH | done].
  - done.
  - intros name sub IHs rest IHr pre.
    rewrite has_file_dirs_cons, rel_paths_dirs_cons, orb_true_iff.
    rewrite (IHs (pre +:+ name +:+ "/")), (IHr pre).
    destruct (rel_paths _ sub); [| by split; [done | left]].
    cbn [app]. split; [by intros [|] | by right].
Qed.

(** The log of pruning holds nothing but directory removals ... *)
Lemma prune_log_both :
  (∀ t below, Forall (λ e, is_rmdir e = true) (prune below t).2)
  ∧ (∀ ds below, Forall (λ e, is_rmdir e = true) (prune_dirs below ds).2).
Proof.
  apply tree_forest_ind.
  - intros fnames dirs IH below. rewrite prune_eq.
    destruct fnames, (prune_dirs below dirs).1; cbn [snd]; try apply IH.
    apply Forall_app. split; [apply IH | by constructor].
  - constructor.
  - intros name sub IHs rest IHr below. rewrite prune_dirs_cons. cbn [snd].
    apply Forall_app. split; [apply IHs | apply IHr].
Qed.

(** ... each of them at or below where pruning started ... *)
Lemma prune_log_below_both :
  (∀ t below q, q ∈ rmdirs (prune below t).2 → below `prefix_of` q)
  ∧ (∀ ds below q, q ∈ rmdirs (prune_dirs below ds).2 →
       ∃ n, n ∈ dir_names ds ∧ (below ++ [n]) `prefix_of` q).
Proof.
  apply tree_forest_ind.
  - intros fnames dirs IH below q. rewrite prune_eq.
    assert (q ∈ rmdirs (prune_dirs below dirs).2 → below `prefix_of` q) as Hd.
    { intros H. apply IH in H as (n & _ & Hn).
      etrans; [| exact Hn]. by apply prefix_app_r. }
    destruct fnames, (prune_dirs below dirs).1; cbn [snd]; try done.
    unfold rmdirs. rewrite omap_app. intros H.
    apply elem_of_app in H as [H|H]; [by apply Hd |].
    cbn in H. by apply list_elem_of_singleton in H as ->.
  - intros below q H. cbn in H. by apply elem_of_nil in H.
  - intros name sub IHs rest IHr below q. rewrite prune_dirs_cons. cbn [snd].
    unfold rmdirs. rewrite omap_app. intros H. cbn [dir_names].
    apply elem_of_app in H as [H|H].
    + exists name. split; [by left | by apply IHs].
    + apply IHr in H as (n & Hn & Hq). exists n. split; [by right | done].
Qed.

Lemma bottom_up_app (l1 l2 : list (list string)) :
  bottom_up l1 → bottom_up l2 →
  (∀ p q, p ∈ l1 → q ∈ l2 → ¬ p `prefix_of` q) →
  bottom_up (l1 ++ l2).
Proof.
  induction l1 as [|x l1 IH]; [done |]. cbn [bottom_up app].
  intros [Hx H1] H2 Hcross. split.
  - apply Forall_app. split; [done |].
    apply Forall_forall. intros q Hq. apply Hcross; [by left | done].
  - apply IH; [done | done |]. intros p q Hp. apply Hcross. by right.
Qed.

Lemma bottom_up_split (l l1 l2 : list (list string)) (p q : list string) :
  bottom_up l → l = l1 ++ p :: l2 → q ∈ l2 → ¬ p `prefix_of` q.
Proof.
  intros Hl ->. induction l1 as [|x l1 IH].
  - destruct Hl as [Hp _]. intros Hq.
    by apply (proj1 (Forall_forall _ _) Hp).
  - destruct Hl as [_ Hl]. by apply IH.
Qed.

Lemma prefix_snoc_inj (below : list string) (n m : string)
    (p q : list string) :
  (below ++ [n]) `prefix_of` p → (below ++ [m]) `prefix_of` q →
  p `prefix_of` q → n = m.
Proof.
  intros [k1 ->] [k2 ->] [k3 H].
  rewrite <- !(assoc_L (++)) in H. apply app_inv_head in H.
  by injection H.
Qed.

(** ... and deepest first. *)
Lemma prune_bottom_up_both :
  (∀ t below, wf t = true → bottom_up (rmdirs (prune below t).2))
  ∧ (∀ ds below, wf_dirs ds = true → NoDup (dir_names ds) →
       bottom_up (rmdirs (prune_dirs below ds).2)).
Proof.
  apply tree_forest_ind.
  - intros fnames dirs IH below Hwf. apply wf_eq in Hwf as (_ & Hwd & Hnd).
    specialize (IH below Hwd Hnd). rewrite prune_eq.
    destruct fnames, (prune_dirs below dirs).1; cbn [snd]; try done.
    unfold rmdirs. rewrite omap_app. apply bottom_up_app; [done | by cbn |].
    intros p q Hp Hq. cbn in Hq. apply list_elem_of_singleton in Hq as ->.
    apply (proj2 prune_log_below_both) in Hp as (n & _ & [k ->]).
    intros [k' H]. apply (f_equal length) in H.
    rewrite !length_app in H. cbn in H. lia.
  - done.
  - intros name sub IHs rest IHr below Hwf Hnd.
    apply wf_dirs_cons in Hwf as (_ & Hws & Hwr).
    cbn [dir_names] in Hnd. apply NoDup_cons in Hnd as [Hfresh Hnd].
    rewrite prune_dirs_cons. cbn [snd]. unfold rmdirs. rewrite omap_app.
    apply bottom_up_app; [by apply IHs | by apply IHr |].
    intros p q Hp Hq Hpq.
    apply (proj1 prune_log_below_both) in Hp.
    apply (proj2 prune_log_below_both) in Hq as (m & Hm & Hq).
    rewrite (prefix_snoc_inj below name m p q Hp Hq Hpq) in Hfresh. done.
Qed.

End prune_facts.

(** ** The walk keeps the directory skeleton *)

Section skeleton.
Import Clean.
Context (unlink_ok : string → bool) (manifest : gset string).

#[local] Abbreviation unlink_loop' := (unlink_loop unlink_ok manifest).
#[local] Abbreviation walk' := (walk unlink_ok manifest).
#[local] Abbreviation walk_dirs' := (walk_dirs unlink_ok manifest).

Lemma unlink_loop_valid (root : string) (fnames : list string) :
  forallb valid_name fnames = true →
  forallb valid_name (final (unlink_loop' root fnames)) = true.
Proof.
  induction fnames as [|f fnames IH]; [done |]. intros Hv.
  pose proof Hv as Hv'. apply andb_true_iff in Hv' as [Hf Hrest].
  cbn [Clean.unlink_loop].
  destruct (decide _); [| destruct (unlink_ok _)]; cbn [final forallb];
    rewrite ?Hf; auto.
Qed.

Lemma walk_dirs_names (root : string) (ds : forest) :
  dir_names (final (walk_dirs' root ds)) = dir_names ds.
Proof.
  induction ds as [|n sub rest IH]; [done |]. rewrite walk_dirs_cons.
  destruct (raised (walk' _ sub)); cbn [final dir_names]; by rewrite ?IH.
Qed.

Lemma walk_wf_both :
  (∀ t root, wf t = true → wf (final (walk' root t)) = true)
  ∧ (∀ ds root, wf_dirs ds = true → wf_dirs (final (walk_dirs' root ds)) = true).
Proof.
  apply tree_forest_ind.
  - intros fnames dirs IH root Hwf. apply wf_eq in Hwf as (Hf & Hd & Hnd).
    rewrite walk_eq.
    destruct (raised (unlink_loop' root fnames)); cbn [final]; apply wf_eq;
      rewrite ?walk_dirs_names; auto using unlink_loop_valid.
  - done.
  - intros name sub IHs rest IHr root Hwf.
    apply wf_dirs_cons in Hwf as (Hn & Hs & Hr). rewrite walk_dirs_cons.
    destruct (raised (walk' _ sub)); cbn [final]; apply wf_dirs_cons; auto.
Qed.

Lemma walk_child (root d : string) (ds : forest) (c : tree) :
  raised (walk_dirs' root ds) = None → child d ds = Some c →
  raised (walk' (os_path_join root d) c) = None
  ∧ child d (final (walk_dirs' root ds))
    = Some (final (walk' (os_path_join root d) c)).
Proof.
  induction ds as [|n sub rest IH]; [done |]. rewrite walk_dirs_cons.
  destruct (raised (walk' (os_path_join root n) sub)) eqn:Hr; [done |].
  cbn [raised final child]. intros Hrest.
  destruct (decide (n = d)) as [->|]; [| by apply IH].
  by intros [= <-].
Qed.

Lemma walk_subdir (ds : list string) (t s : tree) (root pre : string) :
  wf t = true → in_step root pre → raised (walk' root t) = None →
  subdir_at ds t = Some s →
  ∃ root', in_step root' (pre +:+ pre_of ds) ∧ wf s = true
           ∧ raised (walk' root' s) = None
           ∧ subdir_at ds (final (walk' root t))
             = Some (final (walk' root' s)).
Proof.
  revert t root pre. induction ds as [|d ds IH]; intros t root pre Hwf Hs Hr.
  - intros [= <-]. exists root. cbn [pre_of]. by rewrite append_nil_r.
  - destruct t as [fnames dirs]. cbn [subdir_at].
    destruct (child d dirs) as [c|] eqn:Hc; [| done]. intros Hsub.
    apply wf_eq in Hwf as (_ & Hwd & _).
    destruct (wf_child d dirs c Hwd Hc) as [Hwc Hd].
    rewrite walk_eq in Hr |- *.
    destruct (raised (unlink_loop' root fnames)); [done |].
    cbn [raised final] in Hr |- *.
    destruct (walk_child root d dirs c Hr Hc) as [Hrc Hchild].
    destruct (IH c _ _ Hwc (in_step_child root pre d Hs Hd) Hrc Hsub)
      as (root' & Hs' & Hws & Hr' & Hat).
    exists root'. cbn [pre_of]. rewrite !append_assoc in Hs'.
    cbn [subdir_at]. by rewrite Hchild.
Qed.

End skeleton.

(** ** Loading the manifests *)

Lemma py_set_listing (l : list string) :
  py_set (JArr (JStr <$> l)) = Ok (list_to_set l).
Proof.
  cbn [py_set].
  assert (forallb hashable (JStr <$> l) = true) as ->
    by (induction l; [done | by cbn]).
  do 2 f_equal. induction l as [|x l IH]; [done |]. cbn. by rewrite IH.
Qed.

Lemma rejected_spec (path : string) (f : json_file) :
  rejected f = true →
  ∃ e, load_json path f = Raise e
       ∨ ∃ doc, load_json path f = Ok doc ∧ py_set doc = Raise e.
Proof.
  destruct f as [| |doc]; [by eexists; left.. |].
  destruct doc; cbn [rejected]; try done;
    try by (intros _; exists TypeError; right; eexists).
  intros H. exists TypeError. right. eexists. split; [done |]. cbn [py_set].
  apply negb_true_iff in H. unfold hashable. by rewrite H.
Qed.

Lemma clean_with_listings (unlink_ok : string → bool) (m1 m2 : list string)
    (t : Clean.tree) (w : Clean.world) :
  Clean.manifest_public w = listing m1 →
  Clean.manifest_private w = listing m2 →
  Clean.assets w = Some t →
  Clean.clean_orphaned_assets unlink_ok w =
  let o := Clean.walk unlink_ok (list_to_set m1 ∪ list_to_set m2)
                      "build/assets" t in
  let w1 := Clean.World (listing m1) (listing m2) (Some (Clean.final o)) in
  match Clean.raised o with
  | Some e => Clean.Outcome w1 (Clean.trace o) (Some e)
  | None =>
      Clean.Outcome
        (Clean.World (listing m1) (listing m2)
                     (Clean.prune [] (Clean.final o)).1)
        (Clean.trace o ++ (Clean.prune [] (Clean.final o)).2) None
  end.
Proof.
  intros H1 H2 Ht. unfold Clean.clean_orphaned_assets.
  rewrite H1, H2, Ht. unfold listing. cbn [load_json].
  rewrite !py_set_listing. cbv zeta.
  destruct (Clean.raised _); [done |]. by destruct (Clean.prune _ _).
Qed.

Lemma unlinked_app (l1 l2 : list Clean.event) :
  Clean.unlinked (l1 ++ l2) = Clean.unlinked l1 ++ Clean.unlinked l2.
Proof. apply omap_app. Qed.

Lemma rmdirs_app (l1 l2 : list Clean.event) :
  Clean.rmdirs (l1 ++ l2) = Clean.rmdirs l1 ++ Clean.rmdirs l2.
Proof. apply omap_app. Qed.

Lemma rmdir_log_unlinked (lg : list Clean.event) :
  Forall (λ e, Clean.is_rmdir e = true) lg → Clean.unlinked lg = [].
Proof.
  induction 1 as [|e lg He _ IH]; [done |]. by destruct e.
Qed.

Lemma walk_log_no_rmdir (unlink_ok : string → bool) (manifest : gset string)
    (t : Clean.tree) :
  Clean.wf t = true →
  Forall (λ e, Clean.is_rmdir e = false)
         (Clean.trace (Clean.walk unlink_ok manifest "build/assets" t)).
Proof.
  intros Hwf.
  destruct (walk_sweep unlink_ok manifest t Hwf) as (-> & _ & _).
  generalize (Clean.present t). intros l.
  induction l as [|p l IH]; [by constructor |]. cbn [Clean.sweep].
  destruct (decide _); [| destruct (unlink_ok _)]; cbn [Clean.trace];
    repeat constructor; done.
Qed.

(** ** clean_orphaned_assets: the statements *)

Lemma drop_at_root (l : list string) :
  str_drop 13 <$> (Clean.at_root <$> l) = l.
Proof. induction l as [|x l IH]; [done |]. cbn [fmap list_fmap]. by f_equal. Qed.

(** C1.  With both manifests lists of strings and every [unlink] of an
    undeclared file going through, the command completes; the files it
    unlinks are exactly the present files whose root-relative path is in
    neither manifest, each once and in walk order, and the files left under
    build/assets are exactly the present files that are declared.  In terms
    of sets: removed = P ∖ (M1 ∪ M2), kept = P ∩ (M1 ∪ M2). *)
Theorem clean_removes_exactly_orphans (unlink_ok : string → bool)
    (m1 m2 : list string) (t : Clean.tree) (w : Clean.world) :
  Clean.manifest_public w = listing m1 →
  Clean.manifest_private w = listing m2 →
  Clean.assets w = Some t →
  Clean.wf t = true →
  (∀ p, p ∈ Clean.present t →
        p ∉ (list_to_set m1 ∪ list_to_set m2 : gset string) →
        unlink_ok (Clean.at_root p) = true) →
  let o := Clean.clean_orphaned_assets unlink_ok w in
  let declared : gset string := list_to_set m1 ∪ list_to_set m2 in
  let P : gset string := list_to_set (Clean.present t) in
  Clean.raised o = None
  ∧ Clean.unlinked (Clean.trace o)
    = Clean.at_root <$> filter (.∉ declared) (Clean.present t)
  ∧ Clean.present_in (Clean.final o) = filter (.∈ declared) (Clean.present t)
  ∧ list_to_set (str_drop 13 <$> Clean.unlinked (Clean.trace o)) = P ∖ declared
  ∧ list_to_set (Clean.present_in (Clean.final o)) = P ∩ declared.
Proof.
  intros H1 H2 Ht Hwf Hok o declared P.
  assert (Clean.raised o = None
          ∧ Clean.unlinked (Clean.trace o)
            = Clean.at_root <$> filter (.∉ declared) (Clean.present t)
          ∧ Clean.present_in (Clean.final o)
            = filter (.∈ declared) (Clean.present t)) as (Hr & Hu & Hp).
  { subst o. rewrite (clean_with_listings _ m1 m2 t w H1 H2 Ht). cbv zeta.
    destruct (walk_sweep unlink_ok declared t Hwf) as (Wt & Wr & Wf).
    destruct (sweep_all_ok unlink_ok declared (Clean.present t) Hok)
      as (Sr & Sf & Su).
    fold declared. rewrite Wr, Sr. cbn [Clean.raised Clean.trace Clean.final].
    split; [done |]. split.
    - rewrite unlinked_app, Wt, Su.
      rewrite (rmdir_log_unlinked _ (proj1 prune_log_both _ _)).
      by rewrite app_nil_r.
    - unfold Clean.present_in, Clean.present in *. cbn [Clean.assets].
      rewrite <- Sf, <- Wf.
      rewrite (proj1 prune_keeps_files_both
                 (Clean.final (Clean.walk unlink_ok declared "build/assets" t))
                 [] "").
      by destruct (Clean.prune _ _).1. }
  split; [done |]. split; [done |]. split; [done |]. split.
  - rewrite Hu, drop_at_root. apply set_eq. intros x. subst P.
    rewrite elem_of_list_to_set, list_elem_of_filter, elem_of_difference.
    rewrite elem_of_list_to_set. tauto.
  - rewrite Hp. apply set_eq. intros x. subst P.
    rewrite elem_of_list_to_set, list_elem_of_filter, elem_of_intersection.
    rewrite elem_of_list_to_set. tauto.
Qed.

Lemma clean_removes_exactly_orphans_witness :
  let o := Clean.clean_orphaned_assets Clean.permissive Clean.demo_world in
  let declared : gset string :=
    list_to_set Clean.demo_public ∪ list_to_set Clean.demo_private in
  let P : gset string := list_to_set (Clean.present Clean.demo_tree) in
  Clean.raised o = None
  ∧ Clean.unlinked (Clean.trace o)
    = Clean.at_root <$> filter (.∉ declared) (Clean.present Clean.demo_tree)
  ∧ Clean.present_in (Clean.final o)
    = filter (.∈ declared) (Clean.present Clean.demo_tree)
  ∧ list_to_set (str_drop 13 <$> Clean.unlinked (Clean.trace o)) = P ∖ declared
  ∧ list_to_set (Clean.present_in (Clean.final o)) = P ∩ declared.
Proof.
  apply (clean_removes_exactly_orphans Clean.permissive Clean.demo_public
           Clean.demo_private Clean.demo_tree Clean.demo_world);
    reflexivity.
Defined.

(** C5, as stated, fails: with build/assets/junk.bin impossible to unlink,
    the command ends with that [OSError]; the orphans that come later in the
    walk (a/z.bin, old/gone.bin) are neither unlinked nor skipped over, they
    are simply still there. *)
Lemma unlink_failure_not_skipped :
  let o := Clean.clean_orphaned_assets Clean.junk_locked Clean.demo_world in
  Clean.raised o = Some (OSError "build/assets/junk.bin")
  ∧ Clean.unlinked (Clean.trace o) = []
  ∧ bool_decide ("a/z.bin" ∈ Clean.demo_declared) = false
  ∧ bool_decide ("a/z.bin" ∈ Clean.present_in (Clean.final o)) = true.
Proof. cbv zeta. repeat split; by vm_compute. Qed.

(** C5, amended.  The first [unlink] that fails ends the command with its
    [OSError]: the orphans met before it are gone, the failing one and all
    later ones are still present, and no directory is pruned. *)
Theorem failed_unlink_aborts (unlink_ok : string → bool)
    (m1 m2 : list string) (t : Clean.tree) (w : Clean.world)
    (before after : list string) (p : string) :
  Clean.manifest_public w = listing m1 →
  Clean.manifest_private w = listing m2 →
  Clean.assets w = Some t →
  Clean.wf t = true →
  filter (.∉ (list_to_set m1 ∪ list_to_set m2 : gset string)) (Clean.present t)
  = before ++ p :: after →
  (∀ q, q ∈ before → unlink_ok (Clean.at_root q) = true) →
  unlink_ok (Clean.at_root p) = false →
  let o := Clean.clean_orphaned_assets unlink_ok w in
  Clean.raised o = Some (OSError (Clean.at_root p))
  ∧ Clean.unlinked (Clean.trace o) = Clean.at_root <$> before
  ∧ Clean.rmdirs (Clean.trace o) = []
  ∧ (∀ q, q ∈ p :: after → q ∈ Clean.present_in (Clean.final o)).
Proof.
  intros H1 H2 Ht Hwf Hsplit Hbefore Hp o. subst o.
  rewrite (clean_with_listings _ m1 m2 t w H1 H2 Ht). cbv zeta.
  set (declared := (list_to_set m1 ∪ list_to_set m2 : gset string)) in *.
  destruct (walk_sweep unlink_ok declared t Hwf) as (Wt & Wr & Wf).
  destruct (sweep_first_failure unlink_ok declared _ _ _ _ Hsplit Hbefore Hp)
    as (Sr & Su & Srest & _).
  rewrite Wr, Sr. cbn [Clean.raised Clean.trace Clean.final].
  rewrite Wt. split; [done |]. split; [done |]. split.
  - apply sweep_no_rmdir.
  - unfold Clean.present_in. cbn [Clean.assets]. by rewrite Wf.
Qed.

Lemma failed_unlink_aborts_witness :
  let o := Clean.clean_orphaned_assets Clean.junk_locked Clean.demo_world in
  Clean.raised o = Some (OSError (Clean.at_root "junk.bin"))
  ∧ Clean.unlinked (Clean.trace o) = Clean.at_root <$> []
  ∧ Clean.rmdirs (Clean.trace o) = []
  ∧ (∀ q, q ∈ ["junk.bin"; "a/z.bin"; "old/gone.bin"] →
          q ∈ Clean.present_in (Clean.final o)).
Proof.
  apply (failed_unlink_aborts Clean.junk_locked Clean.demo_public
           Clean.demo_private Clean.demo_tree Clean.demo_world
           [] ["a/z.bin"; "old/gone.bin"] "junk.bin");
    try reflexivity.
  intros q Hq. by apply elem_of_nil in Hq.
Defined.

(** C7, as stated, fails: a public manifest that is a JSON object is not a
    list of strings, yet the command runs to completion and unlinks files
    (among them a/x.bin, which the object does not name). *)
Lemma object_manifest_accepted :
  let o := Clean.clean_orphaned_assets Clean.permissive Clean.object_world in
  Clean.manifest_public Clean.object_world
  = Holds (JObj [("keep.bin", JNum "1")])
  ∧ Clean.raised o = None
  ∧ Clean.unlinked (Clean.trace o)
    = ["build/assets/junk.bin"; "build/assets/a/x.bin";
       "build/assets/a/z.bin"; "build/assets/old/gone.bin"]
  ∧ Clean.rmdirs (Clean.trace o) = [["a"; "empty"]; ["a"]; ["old"]].
Proof. cbv zeta. repeat split; by vm_compute. Qed.

(** C7, amended.  If a manifest file is missing, is not JSON, or decodes to
    something [set()] refuses (null, a boolean, a number, or an array with
    an array or object in it), the command fails before touching anything:
    nothing is printed, unlinked or pruned and the world is as it was. *)
Theorem rejected_manifest_no_mutation (unlink_ok : string → bool)
    (w : Clean.world) :
  rejected (Clean.manifest_public w) = true
  ∨ rejected (Clean.manifest_private w) = true →
  let o := Clean.clean_orphaned_assets unlink_ok w in
  is_Some (Clean.raised o) ∧ Clean.trace o = [] ∧ Clean.final o = w.
Proof.
  intros Hbad o. subst o. unfold Clean.clean_orphaned_assets.
  destruct (load_json _ (Clean.manifest_public w)) as [pub|e] eqn:Lpub;
    [| by cbn; eauto].
  destruct (py_set pub) as [s1|e] eqn:Spub; [| by cbn; eauto].
  destruct (load_json _ (Clean.manifest_private w)) as [priv|e] eqn:Lpriv;
    [| by cbn; eauto].
  destruct (py_set priv) as [s2|e] eqn:Spriv; [| by cbn; eauto].
  exfalso. destruct Hbad as [Hbad|Hbad].
  - destruct (rejected_spec "src/assets/.asset_manifest_public.json" _ Hbad)
      as (e & [H | (doc & H & Hs)]); congruence.
  - destruct (rejected_spec "src/assets/.asset_manifest_private.json" _ Hbad)
      as (e & [H | (doc & H & Hs)]); congruence.
Qed.

Lemma rejected_manifest_no_mutation_witness :
  let w := Clean.World Absent (listing Clean.demo_private)
                       (Some Clean.demo_tree) in
  let o := Clean.clean_orphaned_assets Clean.permissive w in
  is_Some (Clean.raised o) ∧ Clean.trace o = [] ∧ Clean.final o = w.
Proof.
  apply (rejected_manifest_no_mutation Clean.permissive
           (Clean.World Absent (listing Clean.demo_private)
                        (Some Clean.demo_tree))).
  left. reflexivity.
Defined.

Lemma filter_nonempty {A : Type} (P : A → Prop) `{∀ x, Decision (P x)}
    (l : list A) :
  filter P l ≠ [] ↔ ∃ x, x ∈ l ∧ P x.
Proof.
  split.
  - destruct (filter P l) as [|x k] eqn:E; [done |]. intros _. exists x.
    assert (x ∈ filter P l) as Hin by (rewrite E; by left).
    apply list_elem_of_filter in Hin. tauto.
  - intros (x & Hx & HP) E.
    assert (x ∈ filter P l) as Hin by (apply list_elem_of_filter; tauto).
    rewrite E in Hin. by apply elem_of_nil in Hin.
Qed.

(** C6.  When the command completes: a directory of the original tree is
    still there afterwards exactly when some file below it is declared (and
    so was not deleted); every directory left without a file anywhere below
    it is gone.  All removals of directories come after all removals of
    files, and nothing at or below a directory is removed after the
    directory itself (deepest first). *)
Theorem prune_after_deletions (unlink_ok : string → bool)
    (m1 m2 : list string) (t : Clean.tree) (w : Clean.world) :
  Clean.manifest_public w = listing m1 →
  Clean.manifest_private w = listing m2 →
  Clean.assets w = Some t →
  Clean.wf t = true →
  (∀ p, p ∈ Clean.present t →
        p ∉ (list_to_set m1 ∪ list_to_set m2 : gset string) →
        unlink_ok (Clean.at_root p) = true) →
  let o := Clean.clean_orphaned_assets unlink_ok w in
  let declared : gset string := list_to_set m1 ∪ list_to_set m2 in
  Clean.raised o = None
  ∧ (∀ ds s, Clean.subdir_at ds t = Some s →
       (is_Some (Clean.assets (Clean.final o) ≫= Clean.subdir_at ds)
        ↔ ∃ p, p ∈ Clean.rel_paths (Clean.pre_of ds) s ∧ p ∈ declared))
  ∧ (∃ deletions removals,
       Clean.trace o = deletions ++ removals
       ∧ Forall (λ e, Clean.is_rmdir e = false) deletions
       ∧ Forall (λ e, Clean.is_rmdir e = true) removals)
  ∧ (∀ l1 p l2 q, Clean.rmdirs (Clean.trace o) = l1 ++ p :: l2 →
       q ∈ l2 → ¬ p `prefix_of` q).
Proof.
  intros H1 H2 Ht Hwf Hok o declared. subst o.
  rewrite (clean_with_listings _ m1 m2 t w H1 H2 Ht). cbv zeta. fold declared.
  set (W := Clean.walk unlink_ok declared "build/assets" t).
  destruct (walk_sweep unlink_ok declared t Hwf) as (Wt & Wr & Wf).
  destruct (sweep_all_ok unlink_ok declared (Clean.present t) Hok)
    as (Sr & _ & _).
  fold W in Wt, Wr, Wf. rewrite Sr in Wr. rewrite Wr.
  cbn [Clean.raised Clean.trace Clean.final Clean.assets].
  assert (Clean.wf (Clean.final W) = true) as HwfW
    by by apply (proj1 (walk_wf_both unlink_ok declared)).
  split; [done |]. split; [| split].
  - intros ds s Hsub.
    destruct (walk_subdir unlink_ok declared ds t s "build/assets" ""
                Hwf in_step_top Wr Hsub) as (root' & Hs' & Hws & Hr' & Hat).
    change ("" +:+ Clean.pre_of ds) with (Clean.pre_of ds) in Hs'.
    destruct (prune_subdir ds _ _ [] HwfW Hat) as [-> _].
    rewrite (proj1 has_file_present_both _ (Clean.pre_of ds)).
    destruct (proj1 (walk_sweep_both unlink_ok declared) s root' _ Hs' Hws)
      as (_ & Sr' & ->).
    rewrite Hr' in Sr'. symmetry in Sr'.
    rewrite (sweep_raised_none unlink_ok declared _ Sr').
    apply filter_nonempty.
  - exists (Clean.trace W), (Clean.prune [] (Clean.final W)).2.
    split; [done |]. split.
    + by apply walk_log_no_rmdir.
    + apply prune_log_both.
  - intros l1 p l2 q Hsplit.
    rewrite rmdirs_app, Wt, sweep_no_rmdir in Hsplit. cbn [app] in Hsplit.
    apply (bottom_up_split _ l1 l2 p q (proj1 prune_bottom_up_both _ [] HwfW)
                           Hsplit).
Qed.

Lemma prune_after_deletions_witness :
  let o := Clean.clean_orphaned_assets Clean.permissive Clean.demo_world in
  let declared : gset string :=
    list_to_set Clean.demo_public ∪ list_to_set Clean.demo_private in
  Clean.raised o = None
  ∧ (∀ ds s, Clean.subdir_at ds Clean.demo_tree = Some s →
       (is_Some (Clean.assets (Clean.final o) ≫= Clean.subdir_at ds)
        ↔ ∃ p, p ∈ Clean.rel_paths (Clean.pre_of ds) s ∧ p ∈ declared))
  ∧ (∃ deletions removals,
       Clean.trace o = deletions ++ removals
       ∧ Forall (λ e, Clean.is_rmdir e = false) deletions
       ∧ Forall (λ e, Clean.is_rmdir e = true) removals)
  ∧ (∀ l1 p l2 q, Clean.rmdirs (Clean.trace o) = l1 ++ p :: l2 →
       q ∈ l2 → ¬ p `prefix_of` q).
Proof.
  apply (prune_after_deletions Clean.permissive Clean.demo_public
           Clean.demo_private Clean.demo_tree Clean.demo_world);
    reflexivity.
Defined.

(** The sample run: a/empty and old go, a (which keeps x.bin) stays. *)
Example prune_demo :
  Clean.clean_orphaned_assets Clean.permissive Clean.demo_world
  = Clean.Outcome
      (Clean.World (listing Clean.demo_public) (listing Clean.demo_private)
         (Some (Clean.Dir ["keep.bin"]
                  (Clean.FCons "a" (Clean.Dir ["x.bin"] Clean.FNil)
                     Clean.FNil))))
      [Clean.Print "Removing orphaned asset file: build/assets/junk.bin";
       Clean.Unlink "build/assets/junk.bin";
       Clean.Print "Removing orphaned asset file: build/assets/a/z.bin";
       Clean.Unlink "build/assets/a/z.bin";
       Clean.Print "Removing orphaned asset file: build/assets/old/gone.bin";
       Clean.Unlink "build/assets/old/gone.bin";
       Clean.Rmdir ["a"; "empty"]; Clean.Rmdir ["old"]]
      None.
Proof. by vm_compute. Qed.

(** ** win_ci_install_prereqs: selection and fetching *)

Lemma select_strings (l : list string) (needed : gset string) :
  Prereqs.select (JStr <$> l) needed = Ok (needed ∪ list_to_set (Prereqs.selected l)).
Proof.
  revert needed. induction l as [|t l IH]; intros needed.
  - cbn. f_equal. unfold Prereqs.selected. cbn. by rewrite (right_id_L ∅ (∪)).
  - cbn [fmap list_fmap Prereqs.select]. rewrite IH. f_equal.
    unfold Prereqs.selected. rewrite filter_cons.
    destruct (Prereqs.wanted t) eqn:Hw.
    + rewrite decide_True by done. cbn [list_to_set foldr].
      apply set_eq. intros x. rewrite !elem_of_union. tauto.
    + by rewrite decide_False by done.
Qed.

Section prereq_facts.
Import Prereqs.
Context (get_target : string → option exn) (iter : gset string → list string).

Lemma install_with_listings (fixed : gset string) (pub priv : list string)
    (w : world) :
  meta_public w = listing pub → meta_private w = listing priv →
  install_prereqs get_target iter fixed w
  = fetch_each get_target (iter (fixed ∪ list_to_set (selected (pub ++ priv)))).
Proof.
  intros H1 H2. unfold install_prereqs. rewrite H1, H2. unfold listing.
  cbn [load_json py_add_iter].
  by rewrite <- fmap_app, select_strings.
Qed.

Lemma fetch_each_all_ok (l : list string) :
  (∀ x, x ∈ l → get_target x = None) →
  fetch_each get_target l = Outcome l None.
Proof.
  induction l as [|t l IH]; [done |]. intros Hok. cbn [fetch_each].
  rewrite (Hok t) by by left. rewrite IH; [done |].
  intros x Hx. apply Hok. by right.
Qed.

Lemma fetch_each_first_failure (before after : list string) (t : string)
    (e : exn) :
  (∀ x, x ∈ before → get_target x = None) → get_target t = Some e →
  fetch_each get_target (before ++ t :: after) = Outcome (before ++ [t]) (Some e).
Proof.
  intros Hok Ht. induction before as [|b before IH].
  - cbn. by rewrite Ht.
  - cbn [app fetch_each]. rewrite (Hok b) by by left.
    rewrite IH; [done |]. intros x Hx. apply Hok. by right.
Qed.

Lemma fetch_each_prefix (l : list string) :
  fetched (fetch_each get_target l) `prefix_of` l.
Proof.
  induction l as [|t l IH]; [done |]. cbn [fetch_each].
  destruct (get_target t); cbn [fetched].
  - by apply prefix_cons, prefix_nil.
  - by apply prefix_cons.
Qed.

End prereq_facts.

(** C3, as stated, fails twice over.  The icon, listed in a meta manifest,
    matches neither pattern rule and is fetched all the same, being one of
    the fixed targets.  And a generated source listed in both meta
    manifests is not fetched at all when an earlier fetch has failed. *)
Lemma unmatched_entry_fetched :
  Prereqs.wanted Prereqs.icon = false
  ∧ Prereqs.fetched (Prereqs.win_ci_install_prereqs
                       Prereqs.cache_up Prereqs.sorted_order
                       Prereqs.icon_world)
    = [ "build/prefab/lib/windows/Debug_Win32/BallisticaKitGenericPlus.lib";
        "build/prefab/lib/windows/Debug_Win32/BallisticaKitGenericPlus.pdb";
        Prereqs.icon ]
  ∧ Prereqs.wanted Prereqs.binding_inc = true
  ∧ Prereqs.win_ci_install_prereqs Prereqs.icon_missing Prereqs.reverse_order
                                   Prereqs.shared_world
    = Prereqs.Outcome [Prereqs.icon] (Some (OtherError "download failed")).
Proof. repeat split; by vm_compute. Qed.

(** C3, amended.  A meta-manifest entry that matches neither pattern rule
    is not added to the fetch set: unless it is one of the fixed targets it
    is not in the set and is never fetched.  An entry that matches a rule
    and is listed in both meta manifests is in the set once: no target is
    ever fetched twice, and when every fetch succeeds it is fetched. *)
Theorem unmatched_excluded_shared_once (get_target : string → option exn)
    (iter : gset string → list string) (fixed : gset string)
    (pub priv : list string) (w : Prereqs.world) :
  Prereqs.meta_public w = listing pub →
  Prereqs.meta_private w = listing priv →
  (∀ s, iter s ≡ₚ elements s) →
  let o := Prereqs.install_prereqs get_target iter fixed w in
  let needed : gset string :=
    fixed ∪ list_to_set (Prereqs.selected (pub ++ priv)) in
  Prereqs.fetch_set fixed pub priv = Ok needed
  ∧ NoDup (Prereqs.fetched o)
  ∧ (∀ e, e ∈ (pub ++ priv) → Prereqs.wanted e = false → e ∉ fixed →
          (e ∉ needed) ∧ (e ∉ Prereqs.fetched o))
  ∧ (∀ e, e ∈ pub → e ∈ priv → Prereqs.wanted e = true →
          e ∈ needed
          ∧ ((∀ x, x ∈ needed → get_target x = None) →
             Prereqs.raised o = None ∧ e ∈ Prereqs.fetched o)).
Proof.
  intros Hpub Hpriv Hiter o needed. subst o.
  rewrite (install_with_listings _ _ fixed pub priv w Hpub Hpriv).
  fold needed.
  pose proof (fetch_each_prefix get_target (iter needed)) as [k Hk].
  assert (NoDup (iter needed)) as Hnd
    by (rewrite Hiter; apply NoDup_elements).
  assert (∀ x, x ∈ iter needed ↔ x ∈ needed) as Hin
    by (intros x; by rewrite Hiter, elem_of_elements).
  split; [apply select_strings |]. split.
  { rewrite Hk in Hnd. by apply NoDup_app in Hnd as [? _]. }
  split.
  - intros e _ Hw Hfix.
    assert (e ∉ needed) as Hout.
    { subst needed. unfold Prereqs.selected.
      rewrite elem_of_union, elem_of_list_to_set, list_elem_of_filter.
      intros [?|[? _]]; [done | congruence]. }
    split; [done |]. intros Hf. apply Hout, Hin. rewrite Hk.
    apply elem_of_app. by left.
  - intros e He _ Hw.
    assert (e ∈ needed) as Hneed.
    { subst needed. unfold Prereqs.selected.
      rewrite elem_of_union, elem_of_list_to_set, list_elem_of_filter.
      right. split; [done |]. apply elem_of_app. by left. }
    split; [done |]. intros Hok.
    rewrite (fetch_each_all_ok get_target (iter needed))
      by (intros x Hx; by apply Hok, Hin).
    split; [done |]. by apply Hin.
Qed.

Lemma unmatched_excluded_shared_once_witness :
  let o := Prereqs.install_prereqs Prereqs.cache_up Prereqs.sorted_order
             Prereqs.needed_targets Prereqs.shared_world in
  let needed : gset string :=
    Prereqs.needed_targets
    ∪ list_to_set (Prereqs.selected
                     ([Prereqs.binding_inc; "docs/readme.md"]
                      ++ [Prereqs.binding_inc])) in
  Prereqs.fetch_set Prereqs.needed_targets
                    [Prereqs.binding_inc; "docs/readme.md"]
                    [Prereqs.binding_inc] = Ok needed
  ∧ NoDup (Prereqs.fetched o)
  ∧ (∀ e, e ∈ ([Prereqs.binding_inc; "docs/readme.md"]
                ++ [Prereqs.binding_inc]) →
          Prereqs.wanted e = false → e ∉ Prereqs.needed_targets →
          (e ∉ needed) ∧ (e ∉ Prereqs.fetched o))
  ∧ (∀ e, e ∈ [Prereqs.binding_inc; "docs/readme.md"] →
          e ∈ [Prereqs.binding_inc] → Prereqs.wanted e = true →
          e ∈ needed
          ∧ ((∀ x, x ∈ needed → Prereqs.cache_up x = None) →
             Prereqs.raised o = None ∧ e ∈ Prereqs.fetched o)).
Proof.
  apply (unmatched_excluded_shared_once Prereqs.cache_up Prereqs.sorted_order
           Prereqs.needed_targets [Prereqs.binding_inc; "docs/readme.md"]
           [Prereqs.binding_inc] Prereqs.shared_world);
    [reflexivity | reflexivity | intros s; reflexivity].
Defined.

(** C4, as stated, fails: "gen/mgen/foo.h" does not start with
    "src/ballistica/", so it passes neither rule and the fetch set of the
    scenario is just the fixed target. *)
Lemma scenario_fetch_set_is_T1 :
  Prereqs.wanted "gen/mgen/foo.h" = false
  ∧ Prereqs.fetch_set {["T1"]} ["gen/mgen/foo.h"; "docs/readme.md"] []
    = Ok {["T1"]}
  ∧ ({["T1"]} : gset string) ≠ {["T1"; "gen/mgen/foo.h"]}.
Proof.
  split; [by vm_compute |]. split; [by vm_compute |].
  intros H. assert ("gen/mgen/foo.h" ∈ ({["T1"]} : gset string)) as Hin.
  { rewrite H. apply elem_of_union. right. by apply elem_of_singleton. }
  by apply elem_of_singleton in Hin.
Qed.

(** C4, amended.  With fixed targets {"T1"} and the meta-manifest entries
    "gen/mgen/foo.h" and "docs/readme.md", both entries pass neither rule
    and the fetch set is {"T1"}; it is the entry
    "src/ballistica/gen/mgen/foo.h" that passes the generated-source rule,
    and with it in place of "gen/mgen/foo.h" the fetch set is
    {"T1", "src/ballistica/gen/mgen/foo.h"}.  (The command itself starts
    from its three built-in targets rather than "T1"; the two entries add
    nothing to those either.) *)
Theorem scenario_fetch_sets :
  Prereqs.fetch_set {["T1"]} ["gen/mgen/foo.h"; "docs/readme.md"] []
  = Ok {["T1"]}
  ∧ Prereqs.fetched (Prereqs.install_prereqs Prereqs.cache_up
                       Prereqs.sorted_order {["T1"]} Prereqs.scenario_world)
    = ["T1"]
  ∧ Prereqs.fetch_set Prereqs.needed_targets
      ["gen/mgen/foo.h"; "docs/readme.md"] []
    = Ok Prereqs.needed_targets
  ∧ Prereqs.generated_source "src/ballistica/gen/mgen/foo.h" = true
  ∧ Prereqs.fetch_set {["T1"]}
      ["src/ballistica/gen/mgen/foo.h"; "docs/readme.md"] []
    = Ok {["T1"; "src/ballistica/gen/mgen/foo.h"]}.
Proof. repeat split; by vm_compute. Qed.

(** C8.  The first [get_target] that raises ends the command with that
    exception: the targets before it in iteration order have been fetched,
    and none of the targets after it is. *)
Theorem first_fetch_error_is_fatal (get_target : string → option exn)
    (iter : gset string → list string) (fixed : gset string)
    (pub priv : list string) (w : Prereqs.world)
    (before after : list string) (t : string) (e : exn) :
  Prereqs.meta_public w = listing pub →
  Prereqs.meta_private w = listing priv →
  iter (fixed ∪ list_to_set (Prereqs.selected (pub ++ priv)))
  = before ++ t :: after →
  NoDup (before ++ t :: after) →
  (∀ x, x ∈ before → get_target x = None) →
  get_target t = Some e →
  let o := Prereqs.install_prereqs get_target iter fixed w in
  Prereqs.raised o = Some e
  ∧ Prereqs.fetched o = before ++ [t]
  ∧ (∀ x, x ∈ after → x ∉ Prereqs.fetched o).
Proof.
  intros Hpub Hpriv Hiter Hnd Hok Ht o. subst o.
  rewrite (install_with_listings _ _ fixed pub priv w Hpub Hpriv), Hiter.
  rewrite (fetch_each_first_failure get_target before after t e Hok Ht).
  cbn [Prereqs.raised Prereqs.fetched]. split; [done |]. split; [done |].
  intros x Hx Hf. apply NoDup_app in Hnd as (_ & Hsep & Hnd').
  apply NoDup_cons in Hnd' as [Hfresh _].
  apply elem_of_app in Hf as [Hf|Hf].
  - apply (Hsep x Hf). by right.
  - apply list_elem_of_singleton in Hf as ->. done.
Qed.

Lemma first_fetch_error_is_fatal_witness :
  let o := Prereqs.install_prereqs Prereqs.icon_missing Prereqs.reverse_order
             Prereqs.needed_targets Prereqs.shared_world in
  Prereqs.raised o = Some (OtherError "download failed")
  ∧ Prereqs.fetched o = [] ++ [Prereqs.icon]
  ∧ (∀ x, x ∈ [ "build/prefab/lib/windows/Debug_Win32/BallisticaKitGenericPlus.pdb";
                "build/prefab/lib/windows/Debug_Win32/BallisticaKitGenericPlus.lib";
                Prereqs.binding_inc ] →
          x ∉ Prereqs.fetched o).
Proof.
  apply (first_fetch_error_is_fatal Prereqs.icon_missing Prereqs.reverse_order
           Prereqs.needed_targets [Prereqs.binding_inc; "docs/readme.md"]
           [Prereqs.binding_inc] Prereqs.shared_world []
           [ "build/prefab/lib/windows/Debug_Win32/BallisticaKitGenericPlus.pdb";
             "build/prefab/lib/windows/Debug_Win32/BallisticaKitGenericPlus.lib";
             Prereqs.binding_inc ]
           Prereqs.icon (OtherError "download failed"));
    [reflexivity | reflexivity | by vm_compute | | | by vm_compute].
  - apply (bool_decide_unpack _). by vm_compute.
  - intros x Hx. by apply elem_of_nil in Hx.
Defined.

(** ** update_cmake_prefab_lib: validation and staging *)

Lemma bind_unfold {A B : Type} (m : Stage.M A) (f : A → Stage.M B)
    (s : Stage.state) :
  (m ≫= f) s =
  match m s with
  | (Ok a, s') => f a s'
  | (Raise e, s') => (Raise e, s')
  end.
Proof. reflexivity. Qed.

(** What staging does, case by case. *)
Lemma stage_up_to_date (E : Stage.env) (target builddir : string)
    (s : Stage.state) (src dst : Stage.entry) :
  Stage.files s !! target = Some src →
  Stage.files s
    !! os_path_join (os_path_join builddir "prefablib") "libballistica_plus.a"
  = Some dst →
  (Stage.mtime src ≤ Stage.mtime dst)%Z →
  Stage.stage E target builddir s = (Ok tt, s).
Proof.
  intros Hsrc Hdst Hle. unfold Stage.stage.
  rewrite bind_unfold. unfold Stage.getmtime at 1. rewrite Hsrc.
  rewrite bind_unfold. unfold Stage.path_exists at 1. rewrite Hdst.
  rewrite bool_decide_eq_true_2 by eauto.
  rewrite !bind_unfold. unfold Stage.getmtime. rewrite Hdst.
  cbn [mret Stage.M_ret].
  by rewrite (proj2 (Z.leb_le _ _) Hle).
Qed.

Lemma stage_copies (E : Stage.env) (target builddir : string)
    (s : Stage.state) (src : Stage.entry) :
  let libdir := os_path_join builddir "prefablib" in
  let libpath := os_path_join libdir "libballistica_plus.a" in
  Stage.files s !! target = Some src →
  (Stage.files s !! libpath = None
   ∨ ∃ dst, Stage.files s !! libpath = Some dst
            ∧ (Stage.mtime dst < Stage.mtime src)%Z) →
  Stage.stage E target builddir s =
  ((if bool_decide (is_Some (Stage.files s !! libdir)) then mret tt
    else Stage.makedirs E libdir) ≫= λ _, Stage.cp E target libdir) s.
Proof.
  intros libdir libpath Hsrc Hdst. unfold Stage.stage. fold libdir libpath.
  rewrite bind_unfold. unfold Stage.getmtime at 1. rewrite Hsrc.
  rewrite bind_unfold. unfold Stage.path_exists at 1.
  assert (∀ k : bool → Stage.M unit,
            ((if bool_decide (is_Some (Stage.files s !! libpath))
              then Stage.getmtime libpath ≫= λ time2,
                     mret (negb (Stage.mtime src <=? time2)%Z)
              else mret true) ≫= k) s = k true s) as ->.
  { intros k. rewrite bind_unfold. destruct Hdst as [Hn|(dst & Hd & Hlt)].
    - rewrite Hn. by rewrite bool_decide_eq_false_2 by by intros [? ?].
    - rewrite Hd, bool_decide_eq_true_2 by eauto.
      rewrite bind_unfold. unfold Stage.getmtime. rewrite Hd.
      cbn [mret Stage.M_ret].
      by rewrite (proj2 (Z.leb_gt _ _) Hlt). }
  rewrite bind_unfold. unfold Stage.path_exists. rewrite !bind_unfold.
  by destruct (bool_decide _).
Qed.

(** Once staging has decided to copy: the directory is created if it is
    missing, [cp] runs on the files that leaves, and the command ends as
    [cp] ends, on the files [cp] produced. *)
Lemma copy_outcome (E : Stage.env) (target libdir : string)
    (fs1 fs2 : gmap string Stage.entry) (rc : option exn)
    (tr : list Stage.event) :
  (fs1 !! libdir = None → (Stage.os_makedirs E libdir fs1).2 = None) →
  let have_dir := bool_decide (is_Some (fs1 !! libdir)) in
  Stage.run_cp E target libdir
    (if have_dir then fs1 else (Stage.os_makedirs E libdir fs1).1)
  = (fs2, rc) →
  ((if have_dir then mret tt else Stage.makedirs E libdir)
     ≫= λ _, Stage.cp E target libdir) (Stage.State fs1 tr)
  = (Stage.outcome rc,
     Stage.State fs2
       (tr ++ (if have_dir then [] else [Stage.Makedirs libdir])
           ++ [Stage.Cp target libdir])).
Proof.
  intros Hdir have_dir Hcp. subst have_dir. rewrite bind_unfold.
  destruct (fs1 !! libdir) as [d|] eqn:Hd.
  - rewrite bool_decide_eq_true_2 in Hcp |- * by eauto.
    cbn [mret Stage.M_ret].
    unfold Stage.cp, Stage.effect. cbn [Stage.files Stage.trace].
    rewrite Hcp. by destruct rc.
  - rewrite bool_decide_eq_false_2 in Hcp |- * by by intros [? ?].
    specialize (Hdir eq_refl).
    unfold Stage.makedirs, Stage.cp, Stage.effect.
    cbn [Stage.files Stage.trace].
    destruct (Stage.os_makedirs E libdir fs1) as [fsd r]. cbn in Hdir, Hcp.
    subst r. cbn [Stage.files Stage.trace]. rewrite Hcp.
    rewrite <- app_assoc. by destruct rc.
Qed.

Lemma command_reaches_stage (E : Stage.env) (argv : list string)
    (s : Stage.state) (platform : string) (fs1 : gmap string Stage.entry) :
  length argv = 5 →
  nth 2 argv "" ∈ ({[ "standard"; "server" ]} : gset string) →
  nth 3 argv "" ∈ ({[ "debug"; "release" ]} : gset string) →
  Stage.get_current_prefab_platform E = Ok platform →
  let target := Stage.target_of platform (nth 2 argv "") (nth 3 argv "") in
  Stage.run_make E target (Stage.files s) = (fs1, None) →
  Stage.update_cmake_prefab_lib E argv s
  = Stage.stage E target (nth 4 argv "")
      (Stage.State fs1 (Stage.trace s ++ [Stage.Make target])).
Proof.
  intros Hlen Hbt Hmode Hplat target Hmake. unfold Stage.update_cmake_prefab_lib.
  rewrite bool_decide_eq_false_2 by (intros H; by apply H).
  rewrite bool_decide_eq_false_2 by (intros H; by apply H).
  rewrite bool_decide_eq_false_2 by (intros H; by apply H).
  rewrite bind_unfold. unfold Stage.lift. rewrite Hplat.
  rewrite bind_unfold. fold target. unfold Stage.make, Stage.effect.
  by rewrite Hmake.
Qed.

(** C10.  A build type other than standard/server, or a mode other than
    debug/release, ends the command with [CleanError] and nothing has been
    run or touched: the files and the log of actions are as before. *)
Theorem invalid_arguments_rejected (E : Stage.env) (argv : list string)
    (s : Stage.state) :
  nth 2 argv "" ∉ ({[ "standard"; "server" ]} : gset string)
  ∨ nth 3 argv "" ∉ ({[ "debug"; "release" ]} : gset string) →
  ∃ msg, Stage.update_cmake_prefab_lib E argv s = (Raise (CleanError msg), s).
Proof.
  intros Hbad. unfold Stage.update_cmake_prefab_lib, Stage.raise.
  destruct (bool_decide (length argv ≠ 5)); [by eexists |].
  destruct (bool_decide (nth 2 argv "" ∉ _)) eqn:Hbt; [by eexists |].
  destruct (bool_decide (nth 3 argv "" ∉ _)) eqn:Hmode; [by eexists |].
  apply bool_decide_eq_false in Hbt, Hmode. tauto.
Qed.

Lemma invalid_arguments_rejected_witness :
  ∃ msg,
    Stage.update_cmake_prefab_lib Stage.demo_env
      ["pcommand"; "update_cmake_prefab_lib"; "gui"; "debug"; "out"]
      Stage.stale_start
    = (Raise (CleanError msg), Stage.stale_start).
Proof.
  apply (invalid_arguments_rejected Stage.demo_env
           ["pcommand"; "update_cmake_prefab_lib"; "gui"; "debug"; "out"]
           Stage.stale_start).
  left. apply (bool_decide_unpack _). by vm_compute.
Defined.

(** C9.  When the staged library exists and is at least as recent as the
    freshly built one, the command does nothing after [make]: the files are
    those [make] left (no directory created, the staged library with the
    content and time stamp it had) and [make] is the only action logged. *)
Theorem up_to_date_left_alone (E : Stage.env) (argv : list string)
    (s : Stage.state) (platform : string) (fs1 : gmap string Stage.entry)
    (src dst : Stage.entry) :
  length argv = 5 →
  nth 2 argv "" ∈ ({[ "standard"; "server" ]} : gset string) →
  nth 3 argv "" ∈ ({[ "debug"; "release" ]} : gset string) →
  Stage.get_current_prefab_platform E = Ok platform →
  let target := Stage.target_of platform (nth 2 argv "") (nth 3 argv "") in
  let libdir := os_path_join (nth 4 argv "") "prefablib" in
  let libpath := os_path_join libdir "libballistica_plus.a" in
  Stage.run_make E target (Stage.files s) = (fs1, None) →
  fs1 !! target = Some src →
  fs1 !! libpath = Some dst →
  (Stage.mtime src ≤ Stage.mtime dst)%Z →
  Stage.update_cmake_prefab_lib E argv s
  = (Ok tt, Stage.State fs1 (Stage.trace s ++ [Stage.Make target])).
Proof.
  intros Hlen Hbt Hmode Hplat target libdir libpath Hmake Hsrc Hdst Hle.
  rewrite (command_reaches_stage E argv s platform fs1 Hlen Hbt Hmode Hplat
             Hmake).
  by apply (stage_up_to_date E _ _ _ src dst).
Qed.

Lemma up_to_date_left_alone_witness :
  Stage.update_cmake_prefab_lib Stage.demo_env Stage.demo_argv
                                Stage.staged_start
  = (Ok tt,
     Stage.State (<[Stage.demo_target := Stage.Entry 200 "built"]>
                    (Stage.files Stage.staged_start))
                 (Stage.trace Stage.staged_start
                  ++ [Stage.Make Stage.demo_target])).
Proof.
  apply (up_to_date_left_alone Stage.demo_env Stage.demo_argv
           Stage.staged_start "linux_x86_64"
           (<[Stage.demo_target := Stage.Entry 200 "built"]>
              (Stage.files Stage.staged_start))
           (Stage.Entry 200 "built") (Stage.Entry 200 "built"));
    try reflexivity.
  all: try (apply (bool_decide_unpack _); by vm_compute).
  all: by vm_compute.
Defined.

(** C2.  In a run that gets past [make] (arguments valid, target built and
    present, the destination directory there or creatable), staging copies
    exactly when the staged library is missing or its modification time is
    strictly less than that of the built one.  Copying is meant as an
    effect, not as a line of the log: the command ends as [cp target libdir]
    ends, with [cp]'s status, on the files [cp] produced from the ones it
    was given (those [make] left, after [makedirs] when the directory was
    missing), with [cp] the last action.  With equal time stamps or a newer
    staged library the command returns on the files [make] left, with
    [make] the only action.  So [cp] is invoked exactly when the copy is
    due, and the command returns from a copy exactly when the copy is due
    and [cp] succeeds. *)
Theorem copy_iff_missing_or_older (E : Stage.env) (argv : list string)
    (fs0 fs1 fs2 : gmap string Stage.entry) (rc : option exn)
    (platform : string) (src : Stage.entry) :
  length argv = 5 →
  nth 2 argv "" ∈ ({[ "standard"; "server" ]} : gset string) →
  nth 3 argv "" ∈ ({[ "debug"; "release" ]} : gset string) →
  Stage.get_current_prefab_platform E = Ok platform →
  let target := Stage.target_of platform (nth 2 argv "") (nth 3 argv "") in
  let libdir := os_path_join (nth 4 argv "") "prefablib" in
  let libpath := os_path_join libdir "libballistica_plus.a" in
  Stage.run_make E target fs0 = (fs1, None) →
  fs1 !! target = Some src →
  (fs1 !! libdir = None → (Stage.os_makedirs E libdir fs1).2 = None) →
  let have_dir := bool_decide (is_Some (fs1 !! libdir)) in
  Stage.run_cp E target libdir
    (if have_dir then fs1 else (Stage.os_makedirs E libdir fs1).1)
  = (fs2, rc) →
  let due :=
    fs1 !! libpath = None
    ∨ ∃ dst, fs1 !! libpath = Some dst
             ∧ (Stage.mtime dst < Stage.mtime src)%Z in
  let r := Stage.update_cmake_prefab_lib E argv (Stage.State fs0 []) in
  (r = (Stage.outcome rc,
        Stage.State fs2
          ([Stage.Make target]
             ++ (if have_dir then [] else [Stage.Makedirs libdir])
             ++ [Stage.Cp target libdir]))
   ↔ due)
  ∧ (r = (Ok tt, Stage.State fs1 [Stage.Make target])
     ↔ ∃ dst, fs1 !! libpath = Some dst
              ∧ (Stage.mtime src ≤ Stage.mtime dst)%Z)
  ∧ (Stage.copied r.2 = true ↔ due)
  ∧ (r.1 = Ok tt ∧ Stage.copied r.2 = true ↔ due ∧ rc = None).
Proof.
  intros Hlen Hbt Hmode Hplat target libdir libpath Hmake Hsrc Hdir have_dir
    Hcp due r.
  set (copy_run := (Stage.outcome rc,
                    Stage.State fs2
                      ([Stage.Make target]
                         ++ (if have_dir then [] else [Stage.Makedirs libdir])
                         ++ [Stage.Cp target libdir]))).
  set (idle_run := (Ok tt, Stage.State fs1 [Stage.Make target])).
  set (current := ∃ dst, fs1 !! libpath = Some dst
                         ∧ (Stage.mtime src ≤ Stage.mtime dst)%Z).
  set (s1 := Stage.State fs1 [Stage.Make target]).
  assert (r = Stage.stage E target (nth 4 argv "") s1) as Hreach.
  { subst r.
    by rewrite (command_reaches_stage E argv (Stage.State fs0 []) platform fs1
                  Hlen Hbt Hmode Hplat Hmake). }
  assert (due → r = copy_run) as Hyes.
  { intros Hd. rewrite Hreach.
    rewrite (stage_copies E target _ s1 src Hsrc Hd).
    exact (copy_outcome E target libdir fs1 fs2 rc [Stage.Make target]
             Hdir Hcp). }
  assert (current → r = idle_run) as Hno.
  { intros (dst & Hd & Hle). rewrite Hreach.
    exact (stage_up_to_date E target _ s1 src dst Hsrc Hd Hle). }
  assert (due ∨ current) as Hcase.
  { subst due current. destruct (fs1 !! libpath) as [dst|]; [| by left; left].
    destruct (Z.le_gt_cases (Stage.mtime src) (Stage.mtime dst));
      [right | left; right]; by exists dst. }
  assert (due → current → False) as Hexcl.
  { intros [Hn | (d & Hd & Hlt)] (dst & Hd' & Hle); [congruence |].
    rewrite Hd in Hd'. injection Hd' as <-. lia. }
  assert (copy_run ≠ idle_run) as Hne.
  { intros Heq. injection Heq as _ _ Htr. apply (f_equal length) in Htr.
    rewrite length_app in Htr. cbn in Htr. lia. }
  assert (Stage.copied copy_run.2 = true) as Hcopied.
  { unfold Stage.copied. cbn [snd copy_run Stage.trace].
    rewrite !existsb_app. cbn. by rewrite orb_true_r. }
  split; [| split; [| split]].
  - split; [| exact Hyes]. intros Hr.
    destruct Hcase as [Hd | Hc]; [done |].
    destruct Hne. by rewrite <- Hr, (Hno Hc).
  - split; [| exact Hno]. intros Hr.
    destruct Hcase as [Hd | Hc]; [| done].
    destruct Hne. by rewrite <- Hr, (Hyes Hd).
  - split.
    + intros Hc. destruct Hcase as [Hd | Hcur]; [done |].
      rewrite (Hno Hcur) in Hc. discriminate.
    + intros Hd. by rewrite (Hyes Hd).
  - split.
    + intros [Hok Hc]. destruct Hcase as [Hd | Hcur].
      * split; [done |]. rewrite (Hyes Hd) in Hok. cbn in Hok.
        by destruct rc.
      * rewrite (Hno Hcur) in Hc. discriminate.
    + intros [Hd ->]. by rewrite (Hyes Hd).
Qed.

Lemma copy_iff_missing_or_older_witness :
  let fs1 := <[Stage.demo_target := Stage.Entry 200 "built"]>
               (Stage.files Stage.stale_start) in
  let fs2 := <["out/prefablib/libballistica_plus.a"
               := Stage.Entry 300 "built"]> fs1 in
  let have_dir := bool_decide (is_Some (fs1 !! "out/prefablib")) in
  let due :=
    fs1 !! "out/prefablib/libballistica_plus.a" = None
    ∨ ∃ dst, fs1 !! "out/prefablib/libballistica_plus.a" = Some dst
             ∧ (Stage.mtime dst < Stage.mtime (Stage.Entry 200 "built"))%Z in
  let r := Stage.update_cmake_prefab_lib Stage.demo_env Stage.demo_argv
             (Stage.State (Stage.files Stage.stale_start) []) in
  (r = (Stage.outcome None,
        Stage.State fs2
          ([Stage.Make Stage.demo_target]
             ++ (if have_dir then [] else [Stage.Makedirs "out/prefablib"])
             ++ [Stage.Cp Stage.demo_target "out/prefablib"]))
   ↔ due)
  ∧ (r = (Ok tt, Stage.State fs1 [Stage.Make Stage.demo_target])
     ↔ ∃ dst, fs1 !! "out/prefablib/libballistica_plus.a" = Some dst
              ∧ (Stage.mtime (Stage.Entry 200 "built") ≤ Stage.mtime dst)%Z)
  ∧ (Stage.copied r.2 = true ↔ due)
  ∧ (r.1 = Ok tt ∧ Stage.copied r.2 = true ↔ due ∧ @None exn = None).
Proof.
  apply (copy_iff_missing_or_older Stage.demo_env Stage.demo_argv
           (Stage.files Stage.stale_start)
           (<[Stage.demo_target := Stage.Entry 200 "built"]>
              (Stage.files Stage.stale_start))
           (<["out/prefablib/libballistica_plus.a"
              := Stage.Entry 300 "built"]>
              (<[Stage.demo_target := Stage.Entry 200 "built"]>
                 (Stage.files Stage.stale_start)))
           None "linux_x86_64" (Stage.Entry 200 "built"));
    try reflexivity.
  all: try (apply (bool_decide_unpack _); by vm_compute).
  all: try by vm_compute.
Defined.

(** The three sample runs: nothing staged, staged and current, staged and
    stale. *)
Example staging_demo :
  Stage.trace (Stage.update_cmake_prefab_lib Stage.demo_env Stage.demo_argv
                 Stage.fresh_start).2
  = [Stage.Make Stage.demo_target; Stage.Makedirs "out/prefablib";
     Stage.Cp Stage.demo_target "out/prefablib"]
  ∧ Stage.trace (Stage.update_cmake_prefab_lib Stage.demo_env Stage.demo_argv
                   Stage.staged_start).2
    = [Stage.Make Stage.demo_target]
  ∧ Stage.trace (Stage.update_cmake_prefab_lib Stage.demo_env Stage.demo_argv
                   Stage.stale_start).2
    = [Stage.Make Stage.demo_target;
       Stage.Cp Stage.demo_target "out/prefablib"].
Proof. repeat split; by vm_compute. Qed.

(** * Further facts *)

(** ** clean_orphaned_assets: what it never does, what it logs, running
    it again *)

Lemma announce_cons (f : string) (fs : list string) :
  announce (f :: fs)
  = Clean.Print (Clean.removing f) :: Clean.Unlink f :: announce fs.
Proof. reflexivity. Qed.

Lemma unlinked_print (msg : string) (lg : list Clean.event) :
  Clean.unlinked (Clean.Print msg :: lg) = Clean.unlinked lg.
Proof. reflexivity. Qed.

Lemma unlinked_unlink (f : string) (lg : list Clean.event) :
  Clean.unlinked (Clean.Unlink f :: lg) = f :: Clean.unlinked lg.
Proof. reflexivity. Qed.

Section sweep_more.
Import Clean.
Context (unlink_ok : string → bool) (manifest : gset string).

#[local] Abbreviation sweep' := (sweep unlink_ok manifest).

Lemma sweep_keeps_declared (l : list string) (q : string) :
  q ∈ l → q ∈ manifest → q ∈ final (sweep' l).
Proof.
  induction l as [|p l IH]; intros Hq Hm; [by apply elem_of_nil in Hq |].
  cbn [Clean.sweep].
  destruct (decide (p ∈ manifest)); [| destruct (unlink_ok _)];
    cbn [final]; [| | done].
  - apply elem_of_cons in Hq as [->|Hq]; [by left | right; by apply IH].
  - apply elem_of_cons in Hq as [->|Hq]; [done | by apply IH].
Qed.

Lemma sweep_unlinks_orphans (l : list string) (f : string) :
  f ∈ unlinked (trace (sweep' l)) →
  ∃ p, f = at_root p ∧ p ∈ l ∧ p ∉ manifest.
Proof.
  induction l as [|p l IH]; cbn [Clean.sweep].
  - intros H. by apply elem_of_nil in H.
  - destruct (decide (p ∈ manifest)); [| destruct (unlink_ok _)];
      cbn [trace unlinked omap].
    + intros H. destruct (IH H) as (q & -> & Hq & Hm).
      exists q. split; [done |]. split; [by right | done].
    + intros H. apply elem_of_cons in H as [->|H].
      * exists p. split; [done |]. split; [by left | done].
      * destruct (IH H) as (q & -> & Hq & Hm).
        exists q. split; [done |]. split; [by right | done].
    + intros H. by apply elem_of_nil in H.
Qed.

(** Every unlink comes right after its log line; a failed unlink leaves
    its log line as the last thing logged. *)
Lemma sweep_announces (l : list string) :
  match raised (sweep' l) with
  | None => trace (sweep' l) = announce (unlinked (trace (sweep' l)))
  | Some e =>
      ∃ p, e = OSError (at_root p) ∧ p ∈ l ∧ (p ∉ manifest)
           ∧ unlink_ok (at_root p) = false
           ∧ trace (sweep' l)
             = announce (unlinked (trace (sweep' l)))
               ++ [Print (removing (at_root p))]
  end.
Proof.
  induction l as [|p l IH]; [done |]. cbn [Clean.sweep].
  destruct (decide (p ∈ manifest)); [| destruct (unlink_ok _) eqn:Hok];
    cbn [trace raised]; rewrite ?unlinked_print, ?unlinked_unlink.
  - destruct (raised (sweep' l)); [| done].
    destruct IH as (q & -> & Hq & Hm & Hf & Ht).
    exists q. repeat split; [by right | done | done | done].
  - destruct (raised (sweep' l)).
    + destruct IH as (q & -> & Hq & Hm & Hf & Ht).
      exists q. repeat split; [by right | done | done |].
      rewrite announce_cons. cbn [app]. by do 2 f_equal.
    + rewrite announce_cons. by do 2 f_equal.
  - exists p. repeat split; [by left | done | done].
Qed.

Lemma sweep_all_declared (l : list string) :
  Forall (.∈ manifest) l → sweep' l = Outcome l [] None.
Proof.
  induction 1 as [|p l Hp _ IH]; [done |]. cbn [Clean.sweep].
  rewrite decide_True by done. by rewrite IH.
Qed.

End sweep_more.

Section rerun.
Import Clean.

Lemma prune_dirs_sublist (ds : forest) (below : list string) :
  dir_names (prune_dirs below ds).1 `sublist_of` dir_names ds.
Proof.
  induction ds as [|n sub rest IH]; [done |].
  rewrite prune_dirs_cons. cbn [fst dir_names].
  destruct (prune _ sub).1; cbn [dir_names].
  - by apply sublist_skip.
  - by apply sublist_cons.
Qed.

Lemma prune_some (below : list string) (fnames : list string) (dirs : forest)
    (t' : tree) :
  (prune below (Dir fnames dirs)).1 = Some t' →
  t' = Dir fnames (prune_dirs below dirs).1
  ∧ ¬ (fnames = [] ∧ (prune_dirs below dirs).1 = FNil).
Proof.
  rewrite prune_eq.
  destruct fnames, (prune_dirs below dirs).1; cbn [fst]; intros [= <-];
    (split; [done |]); by intros [? ?].
Qed.

(** Pruning keeps a tree well formed ... *)
Lemma prune_wf_both :
  (∀ t below t', wf t = true → (prune below t).1 = Some t' → wf t' = true)
  ∧ (∀ ds below, wf_dirs ds = true → wf_dirs (prune_dirs below ds).1 = true).
Proof.
  apply tree_forest_ind.
  - intros fnames dirs IH below t' Hwf Hp.
    apply wf_eq in Hwf as (Hf & Hd & Hnd).
    apply prune_some in Hp as [-> _]. apply wf_eq.
    split; [done |]. split; [by apply IH |].
    apply (sublist_NoDup _ _ Hnd (prune_dirs_sublist dirs below)).
  - done.
  - intros name sub IHs rest IHr below Hwf.
    apply wf_dirs_cons in Hwf as (Hn & Hs & Hr).
    rewrite prune_dirs_cons. cbn [fst].
    destruct (prune (below ++ [name]) sub).1 as [s|] eqn:Hp; [| by apply IHr].
    apply wf_dirs_cons. split; [done |]. split; [| by apply IHr].
    by apply (IHs (below ++ [name])).
Qed.

(** ... and pruning what has been pruned changes nothing. *)
Lemma prune_again_both :
  (∀ t below t', (prune below t).1 = Some t' →
     ∀ below', prune below' t' = (Some t', []))
  ∧ (∀ ds below below',
       prune_dirs below' (prune_dirs below ds).1
       = ((prune_dirs below ds).1, [])).
Proof.
  apply tree_forest_ind.
  - intros fnames dirs IH below t' Hp below'.
    apply prune_some in Hp as [-> Hne].
    rewrite prune_eq, (IH below below'). cbn [fst snd].
    destruct fnames, (prune_dirs below dirs).1; try done.
    by destruct Hne.
  - done.
  - intros name sub IHs rest IHr below below'.
    rewrite prune_dirs_cons. cbn [fst].
    destruct (prune (below ++ [name]) sub).1 as [s|] eqn:Hp; [| apply IHr].
    rewrite prune_dirs_cons, (IHs _ s Hp), (IHr below below'). done.
Qed.

Context (unlink_ok : string → bool) (manifest : gset string).

Lemma unlink_loop_all_declared (root pre : string) (fnames : list string) :
  in_step root pre → forallb valid_name fnames = true →
  Forall (.∈ manifest) (map (String.append pre) fnames) →
  unlink_loop unlink_ok manifest root fnames = Outcome fnames [] None.
Proof.
  intros Hs. induction fnames as [|f fnames IH]; [done |].
  intros Hv Hall. apply andb_true_iff in Hv as [Hf Hv].
  cbn [map] in Hall. apply Forall_cons in Hall as [Hin Hall].
  destruct (valid_name_inv f Hf) as (_ & Hlead & _).
  cbn [Clean.unlink_loop].
  rewrite (join_in_step root pre f Hs Hlead), drop_build_assets.
  rewrite decide_True by done. by rewrite IH.
Qed.

(** A walk over a tree whose files are all declared touches nothing. *)
Lemma walk_all_declared_both :
  (∀ t root pre, in_step root pre → wf t = true →
     Forall (.∈ manifest) (rel_paths pre t) →
     walk unlink_ok manifest root t = Outcome t [] None)
  ∧ (∀ ds root pre, in_step root pre → wf_dirs ds = true →
       Forall (.∈ manifest) (rel_paths_dirs pre ds) →
       walk_dirs unlink_ok manifest root ds = Outcome ds [] None).
Proof.
  apply tree_forest_ind.
  - intros fnames dirs IH root pre Hs Hwf Hall.
    apply wf_eq in Hwf as (Hf & Hd & _).
    rewrite rel_paths_eq in Hall. apply Forall_app in Hall as [Hall1 Hall2].
    rewrite walk_eq, (unlink_loop_all_declared root pre fnames Hs Hf Hall1).
    cbn [raised final trace]. by rewrite (IH root pre Hs Hd Hall2).
  - done.
  - intros name sub IHs rest IHr root pre Hs Hwf Hall.
    apply wf_dirs_cons in Hwf as (Hn & Hsub & Hrest).
    rewrite rel_paths_dirs_cons in Hall.
    apply Forall_app in Hall as [Hall1 Hall2].
    rewrite walk_dirs_cons.
    rewrite (IHs _ _ (in_step_child root pre name Hs Hn) Hsub Hall1).
    cbn [raised final trace]. by rewrite (IHr root pre Hs Hrest Hall2).
Qed.

End rerun.

(** How a run on two listings relates to the pass over the present files. *)
Lemma clean_by_sweep (unlink_ok : string → bool) (m1 m2 : list string)
    (t : Clean.tree) (w : Clean.world) :
  Clean.manifest_public w = listing m1 →
  Clean.manifest_private w = listing m2 →
  Clean.assets w = Some t →
  Clean.wf t = true →
  let o := Clean.clean_orphaned_assets unlink_ok w in
  let S := Clean.sweep unlink_ok (list_to_set m1 ∪ list_to_set m2)
                       (Clean.present t) in
  Clean.raised o = Clean.raised S
  ∧ Clean.present_in (Clean.final o) = Clean.final S
  ∧ Clean.unlinked (Clean.trace o) = Clean.unlinked (Clean.trace S)
  ∧ ∃ removals, Clean.trace o = Clean.trace S ++ removals
                ∧ Forall (λ e, Clean.is_rmdir e = true) removals
                ∧ (Clean.raised S ≠ None → removals = []).
Proof.
  intros H1 H2 Ht Hwf o S. subst o S.
  rewrite (clean_with_listings _ m1 m2 t w H1 H2 Ht). cbv zeta.
  set (declared := (list_to_set m1 ∪ list_to_set m2 : gset string)).
  destruct (walk_sweep unlink_ok declared t Hwf) as (Wt & Wr & Wf).
  rewrite <- Wr, <- Wt, <- Wf.
  destruct (Clean.raised (Clean.walk _ _ _ t)) as [e|];
    cbn [Clean.raised Clean.trace Clean.final].
  - repeat split; [done.. |]. exists []. by rewrite app_nil_r.
  - split; [done |]. split.
    { unfold Clean.present_in, Clean.present. cbn [Clean.assets].
      rewrite (proj1 prune_keeps_files_both
                 (Clean.final (Clean.walk unlink_ok declared "build/assets" t))
                 [] "").
      by destruct (Clean.prune _ _).1. }
    split.
    { rewrite unlinked_app.
      rewrite (rmdir_log_unlinked _ (proj1 prune_log_both _ _)).
      by rewrite app_nil_r. }
    eexists. split; [done |]. split; [apply prune_log_both | done].
Qed.

(** X1.  Whatever happens to the unlinks, and whether or not the command
    completes, a present file whose root-relative path is in either
    manifest is still there afterwards, and every file the command unlinks
    is a present file that neither manifest names. *)
Theorem declared_files_survive (unlink_ok : string → bool)
    (m1 m2 : list string) (t : Clean.tree) (w : Clean.world) :
  Clean.manifest_public w = listing m1 →
  Clean.manifest_private w = listing m2 →
  Clean.assets w = Some t →
  Clean.wf t = true →
  let o := Clean.clean_orphaned_assets unlink_ok w in
  let declared : gset string := list_to_set m1 ∪ list_to_set m2 in
  (∀ p, p ∈ Clean.present t → p ∈ declared →
        p ∈ Clean.present_in (Clean.final o))
  ∧ (∀ f, f ∈ Clean.unlinked (Clean.trace o) →
          ∃ p, f = Clean.at_root p ∧ p ∈ Clean.present t ∧ p ∉ declared).
Proof.
  intros H1 H2 Ht Hwf o declared.
  destruct (clean_by_sweep unlink_ok m1 m2 t w H1 H2 Ht Hwf)
    as (_ & Hp & Hu & _).
  fold o in Hp, Hu. rewrite Hp, Hu. split.
  - intros p. apply sweep_keeps_declared.
  - intros f. apply sweep_unlinks_orphans.
Qed.

Lemma declared_files_survive_witness :
  let o := Clean.clean_orphaned_assets Clean.junk_locked Clean.demo_world in
  let declared : gset string :=
    list_to_set Clean.demo_public ∪ list_to_set Clean.demo_private in
  (∀ p, p ∈ Clean.present Clean.demo_tree → p ∈ declared →
        p ∈ Clean.present_in (Clean.final o))
  ∧ (∀ f, f ∈ Clean.unlinked (Clean.trace o) →
          ∃ p, f = Clean.at_root p ∧ p ∈ Clean.present Clean.demo_tree
               ∧ p ∉ declared).
Proof.
  apply (declared_files_survive Clean.junk_locked Clean.demo_public
           Clean.demo_private Clean.demo_tree Clean.demo_world);
    reflexivity.
Defined.

(** X2.  Every unlink is announced: the log of a run is, for each file
    unlinked, its "Removing orphaned asset file" line immediately followed
    by the unlink, and after those either the removals of directories (the
    run completed) or the line of the one file whose unlink raised. *)
Theorem every_deletion_is_announced (unlink_ok : string → bool)
    (m1 m2 : list string) (t : Clean.tree) (w : Clean.world) :
  Clean.manifest_public w = listing m1 →
  Clean.manifest_private w = listing m2 →
  Clean.assets w = Some t →
  Clean.wf t = true →
  let o := Clean.clean_orphaned_assets unlink_ok w in
  let deleted := Clean.unlinked (Clean.trace o) in
  match Clean.raised o with
  | None =>
      ∃ removals, Clean.trace o = announce deleted ++ removals
                  ∧ Forall (λ e, Clean.is_rmdir e = true) removals
  | Some e =>
      ∃ p, e = OSError (Clean.at_root p)
           ∧ unlink_ok (Clean.at_root p) = false
           ∧ Clean.trace o
             = announce deleted ++ [Clean.Print (Clean.removing (Clean.at_root p))]
  end.
Proof.
  intros H1 H2 Ht Hwf o deleted. subst deleted.
  destruct (clean_by_sweep unlink_ok m1 m2 t w H1 H2 Ht Hwf)
    as (Hr & _ & Hu & removals & Htr & Hrm & Hnone).
  fold o in Hr, Hu, Htr. rewrite Hr, Hu, Htr.
  pose proof (sweep_announces unlink_ok (list_to_set m1 ∪ list_to_set m2)
                (Clean.present t)) as Ha.
  destruct (Clean.raised (Clean.sweep _ _ _)) as [e|].
  - destruct Ha as (p & -> & _ & _ & Hf & Ha).
    rewrite Hnone by done. rewrite app_nil_r. by exists p.
  - exists removals. by rewrite <- Ha.
Qed.

Lemma every_deletion_is_announced_witness :
  let o := Clean.clean_orphaned_assets Clean.permissive Clean.demo_world in
  let deleted := Clean.unlinked (Clean.trace o) in
  match Clean.raised o with
  | None =>
      ∃ removals, Clean.trace o = announce deleted ++ removals
                  ∧ Forall (λ e, Clean.is_rmdir e = true) removals
  | Some e =>
      ∃ p, e = OSError (Clean.at_root p)
           ∧ Clean.permissive (Clean.at_root p) = false
           ∧ Clean.trace o
             = announce deleted ++ [Clean.Print (Clean.removing (Clean.at_root p))]
  end.
Proof.
  apply (every_deletion_is_announced Clean.permissive Clean.demo_public
           Clean.demo_private Clean.demo_tree Clean.demo_world);
    reflexivity.
Defined.

Lemma clean_without_assets (unlink_ok : string → bool) (m1 m2 : list string)
    (w : Clean.world) :
  Clean.manifest_public w = listing m1 →
  Clean.manifest_private w = listing m2 →
  Clean.assets w = None →
  Clean.clean_orphaned_assets unlink_ok w
  = Clean.Outcome w [] (Some (CalledProcessError Clean.find_cmd)).
Proof.
  intros H1 H2 Ht. unfold Clean.clean_orphaned_assets.
  rewrite H1, H2, Ht. unfold listing. cbn [load_json].
  by rewrite !py_set_listing.
Qed.

(** X3.  Running the command again is quiet: after a run that completed
    and left at least one declared file, a second run with the same
    manifests (whatever the unlinks would do) completes, prints nothing,
    unlinks nothing, removes no directory and leaves everything as it
    is. *)
Theorem second_run_is_quiet (unlink_ok unlink_ok' : string → bool)
    (m1 m2 : list string) (t : Clean.tree) (w : Clean.world) (kept : string) :
  Clean.manifest_public w = listing m1 →
  Clean.manifest_private w = listing m2 →
  Clean.assets w = Some t →
  Clean.wf t = true →
  Clean.raised (Clean.clean_orphaned_assets unlink_ok w) = None →
  kept ∈ Clean.present t →
  kept ∈ (list_to_set m1 ∪ list_to_set m2 : gset string) →
  let w' := Clean.final (Clean.clean_orphaned_assets unlink_ok w) in
  Clean.clean_orphaned_assets unlink_ok' w' = Clean.Outcome w' [] None.
Proof.
  intros H1 H2 Ht Hwf Hr Hk1 Hk2 w'. subst w'. revert Hr.
  rewrite (clean_with_listings _ m1 m2 t w H1 H2 Ht). cbv zeta.
  set (declared := (list_to_set m1 ∪ list_to_set m2 : gset string)) in *.
  set (W := Clean.walk unlink_ok declared "build/assets" t).
  destruct (walk_sweep unlink_ok declared t Hwf) as (_ & Wr & Wf).
  fold W in Wr, Wf.
  destruct (Clean.raised W) as [e|] eqn:HrW; [done |]. intros _.
  cbn [Clean.final].
  symmetry in Wr. rewrite (sweep_raised_none _ _ _ Wr) in Wf.
  assert (Clean.wf (Clean.final W) = true) as HwfW
    by by apply (proj1 (walk_wf_both unlink_ok declared)).
  destruct (Clean.prune [] (Clean.final W)).1 as [t'|] eqn:Hp.
  - assert (Clean.present t' = filter (.∈ declared) (Clean.present t)) as Hpres.
    { rewrite <- Wf. unfold Clean.present.
      rewrite (proj1 prune_keeps_files_both (Clean.final W) [] "").
      by rewrite Hp. }
    rewrite (clean_with_listings unlink_ok' m1 m2 t'
               (Clean.World (listing m1) (listing m2) (Some t'))
               eq_refl eq_refl eq_refl).
    cbv zeta. fold declared.
    rewrite (proj1 (walk_all_declared_both unlink_ok' declared) t'
               "build/assets" "" in_step_top
               (proj1 prune_wf_both _ _ _ HwfW Hp)).
    + cbn [Clean.raised Clean.final Clean.trace].
      by rewrite (proj1 prune_again_both _ _ _ Hp []).
    + change (Clean.rel_paths "" t') with (Clean.present t'). rewrite Hpres.
      apply Forall_forall. intros x Hx.
      by apply list_elem_of_filter in Hx as [? _].
  - exfalso. apply (proj1 prune_gone_both) in Hp.
    assert (Clean.has_file (Clean.final W) = true) as Hh; [| congruence].
    apply (proj1 has_file_present_both _ "").
    change (Clean.rel_paths "" (Clean.final W))
      with (Clean.present (Clean.final W)).
    rewrite Wf. apply filter_nonempty. by exists kept.
Qed.

Lemma second_run_is_quiet_witness :
  let w' := Clean.final (Clean.clean_orphaned_assets Clean.permissive
                           Clean.demo_world) in
  Clean.clean_orphaned_assets Clean.junk_locked w' = Clean.Outcome w' [] None.
Proof.
  apply (second_run_is_quiet Clean.permissive Clean.junk_locked
           Clean.demo_public Clean.demo_private Clean.demo_tree
           Clean.demo_world "keep.bin");
    try reflexivity.
  all: apply (bool_decide_unpack _); by vm_compute.
Defined.

(** X4.  When none of the present files is declared (and they can all be
    unlinked), the command empties build/assets and [find] removes
    build/assets itself; the next run then fails in [find], with
    [CalledProcessError], before doing anything. *)
Theorem emptied_root_fails_next_run (unlink_ok unlink_ok' : string → bool)
    (m1 m2 : list string) (t : Clean.tree) (w : Clean.world) :
  Clean.manifest_public w = listing m1 →
  Clean.manifest_private w = listing m2 →
  Clean.assets w = Some t →
  Clean.wf t = true →
  (∀ p, p ∈ Clean.present t →
        (p ∉ (list_to_set m1 ∪ list_to_set m2 : gset string))
        ∧ unlink_ok (Clean.at_root p) = true) →
  let o := Clean.clean_orphaned_assets unlink_ok w in
  Clean.raised o = None
  ∧ Clean.assets (Clean.final o) = None
  ∧ Clean.Rmdir [] ∈ Clean.trace o
  ∧ Clean.clean_orphaned_assets unlink_ok' (Clean.final o)
    = Clean.Outcome (Clean.final o) []
        (Some (CalledProcessError Clean.find_cmd)).
Proof.
  intros H1 H2 Ht Hwf Hall o. subst o.
  rewrite (clean_with_listings _ m1 m2 t w H1 H2 Ht). cbv zeta.
  set (declared := (list_to_set m1 ∪ list_to_set m2 : gset string)) in *.
  set (W := Clean.walk unlink_ok declared "build/assets" t).
  destruct (walk_sweep unlink_ok declared t Hwf) as (_ & Wr & Wf).
  destruct (sweep_all_ok unlink_ok declared (Clean.present t))
    as (Sr & Sf & _); [intros p Hp _; by apply Hall |].
  fold W in Wr, Wf. rewrite Sr in Wr. rewrite Wr, Sf in *.
  cbn [Clean.raised Clean.final Clean.trace Clean.assets].
  assert (filter (.∈ declared) (Clean.present t) = []) as Hnone.
  { destruct (filter _ _) as [|x l] eqn:E; [done |].
    assert (x ∈ filter (.∈ declared) (Clean.present t)) as Hx
      by (rewrite E; by left).
    apply list_elem_of_filter in Hx as [Hd Hx]. by destruct (Hall x Hx). }
  rewrite Hnone in Wf.
  assert (Clean.has_file (Clean.final W) = false) as Hh.
  { destruct (Clean.has_file (Clean.final W)) eqn:E; [| done].
    by apply (proj1 has_file_present_both _ "") in E. }
  pose proof (proj2 (proj1 prune_gone_both (Clean.final W) []) Hh) as Hp.
  rewrite Hp. split; [done |]. split; [done |]. split.
  - apply elem_of_app. right. destruct (Clean.final W) as [fnames dirs].
    rewrite prune_eq in Hp |- *.
    destruct fnames, (Clean.prune_dirs [] dirs).1; try done.
    cbn [snd]. apply elem_of_app. right. by left.
  - by apply (clean_without_assets unlink_ok' m1 m2).
Qed.

Lemma emptied_root_fails_next_run_witness :
  let w := Clean.World (listing []) (listing []) (Some Clean.demo_tree) in
  let o := Clean.clean_orphaned_assets Clean.permissive w in
  Clean.raised o = None
  ∧ Clean.assets (Clean.final o) = None
  ∧ Clean.Rmdir [] ∈ Clean.trace o
  ∧ Clean.clean_orphaned_assets Clean.junk_locked (Clean.final o)
    = Clean.Outcome (Clean.final o) []
        (Some (CalledProcessError Clean.find_cmd)).
Proof.
  apply (emptied_root_fails_next_run Clean.permissive Clean.junk_locked [] []
           Clean.demo_tree
           (Clean.World (listing []) (listing []) (Some Clean.demo_tree)));
    try reflexivity.
  intros p _. split; [| reflexivity].
  rewrite elem_of_union, !elem_of_list_to_set, !elem_of_nil. tauto.
Defined.

(** ** win_ci_install_prereqs: a complete run, and unusable meta manifests *)

(** X5.  When both meta manifests are lists of strings and every fetch
    succeeds, the command completes and the targets fetched are, each
    exactly once and in whatever order the set is iterated, the fixed
    targets together with the listed entries that pass a pattern rule;
    nothing else is fetched. *)
Theorem complete_run_fetches_needed_once (get_target : string → option exn)
    (iter : gset string → list string) (fixed : gset string)
    (pub priv : list string) (w : Prereqs.world) :
  Prereqs.meta_public w = listing pub →
  Prereqs.meta_private w = listing priv →
  (∀ s, iter s ≡ₚ elements s) →
  (∀ x, x ∈ fixed ∨ (x ∈ (pub ++ priv) ∧ Prereqs.wanted x = true) →
        get_target x = None) →
  let o := Prereqs.install_prereqs get_target iter fixed w in
  Prereqs.raised o = None
  ∧ NoDup (Prereqs.fetched o)
  ∧ (∀ x, x ∈ Prereqs.fetched o
          ↔ x ∈ fixed ∨ (x ∈ (pub ++ priv) ∧ Prereqs.wanted x = true)).
Proof.
  intros Hpub Hpriv Hiter Hok o. subst o.
  rewrite (install_with_listings _ _ fixed pub priv w Hpub Hpriv).
  set (needed := fixed ∪ list_to_set (Prereqs.selected (pub ++ priv))).
  assert (∀ x, x ∈ needed
               ↔ x ∈ fixed ∨ (x ∈ (pub ++ priv) ∧ Prereqs.wanted x = true))
    as Hneed.
  { intros x. subst needed. unfold Prereqs.selected.
    rewrite elem_of_union, elem_of_list_to_set, list_elem_of_filter. tauto. }
  assert (∀ x, x ∈ iter needed ↔ x ∈ needed) as Hin
    by (intros x; by rewrite Hiter, elem_of_elements).
  rewrite (fetch_each_all_ok get_target (iter needed))
    by (intros x Hx; by apply Hok, Hneed, Hin).
  cbn [Prereqs.raised Prereqs.fetched]. split; [done |]. split.
  - rewrite Hiter. apply NoDup_elements.
  - intros x. by rewrite Hin.
Qed.

Lemma complete_run_fetches_needed_once_witness :
  let o := Prereqs.install_prereqs Prereqs.cache_up Prereqs.reverse_order
             Prereqs.needed_targets Prereqs.shared_world in
  Prereqs.raised o = None
  ∧ NoDup (Prereqs.fetched o)
  ∧ (∀ x, x ∈ Prereqs.fetched o
          ↔ x ∈ Prereqs.needed_targets
            ∨ (x ∈ ([Prereqs.binding_inc; "docs/readme.md"]
                    ++ [Prereqs.binding_inc])
               ∧ Prereqs.wanted x = true)).
Proof.
  apply (complete_run_fetches_needed_once Prereqs.cache_up
           Prereqs.reverse_order Prereqs.needed_targets
           [Prereqs.binding_inc; "docs/readme.md"] [Prereqs.binding_inc]
           Prereqs.shared_world);
    [reflexivity | reflexivity | | reflexivity].
  intros s. unfold Prereqs.reverse_order. apply reverse_Permutation.
Defined.

Lemma select_not_strings (items : list json) (needed : gset string) :
  forallb is_jstr items = false →
  Prereqs.select items needed = Raise AttributeError.
Proof.
  revert needed. induction items as [|v items IH]; intros needed; [done |].
  cbn [forallb]. destruct v; cbn [is_jstr andb Prereqs.select]; try done.
  intros H. by apply IH.
Qed.

(** X6.  Unless the two meta manifests both load and are either two lists
    of strings or two strings, the command raises before a single target
    is fetched. *)
Theorem unusable_meta_fetches_nothing (get_target : string → option exn)
    (iter : gset string → list string) (fixed : gset string)
    (w : Prereqs.world) :
  meta_usable (Prereqs.meta_public w) (Prereqs.meta_private w) = false →
  let o := Prereqs.install_prereqs get_target iter fixed w in
  is_Some (Prereqs.raised o) ∧ Prereqs.fetched o = [].
Proof.
  intros Hbad o. subst o. unfold Prereqs.install_prereqs.
  destruct (Prereqs.meta_public w) as [| |pub]; [by cbn; eauto.. |].
  destruct (Prereqs.meta_private w) as [| |priv]; [by cbn; eauto.. |].
  cbn [load_json].
  destruct pub, priv; cbn [Prereqs.py_add_iter]; try by (cbn; eauto).
  cbn [meta_usable] in Hbad. by rewrite (select_not_strings _ _ Hbad); eauto.
Qed.

Lemma unusable_meta_fetches_nothing_witness :
  let w := Prereqs.World (listing ["src/ballistica/base/mgen/a.h"])
                         (Holds (JArr [JStr "src/ballistica/base/mgen/b.h";
                                       JNum "7"])) in
  let o := Prereqs.install_prereqs Prereqs.cache_up Prereqs.sorted_order
             Prereqs.needed_targets w in
  is_Some (Prereqs.raised o) ∧ Prereqs.fetched o = [].
Proof.
  apply (unusable_meta_fetches_nothing Prereqs.cache_up Prereqs.sorted_order
           Prereqs.needed_targets
           (Prereqs.World (listing ["src/ballistica/base/mgen/a.h"])
              (Holds (JArr [JStr "src/ballistica/base/mgen/b.h";
                            JNum "7"])))).
  reflexivity.
Defined.

(** ** update_cmake_prefab_lib: when the build or the built file fails *)

(** X7.  When [make] exits with an error the command ends with that
    error: [make] is the only action taken; nothing is stat'ed, created or
    copied afterwards. *)
Theorem failed_make_stops_staging (E : Stage.env) (argv : list string)
    (s : Stage.state) (platform : string) (fs1 : gmap string Stage.entry)
    (e : exn) :
  length argv = 5 →
  nth 2 argv "" ∈ ({[ "standard"; "server" ]} : gset string) →
  nth 3 argv "" ∈ ({[ "debug"; "release" ]} : gset string) →
  Stage.get_current_prefab_platform E = Ok platform →
  let target := Stage.target_of platform (nth 2 argv "") (nth 3 argv "") in
  Stage.run_make E target (Stage.files s) = (fs1, Some e) →
  Stage.update_cmake_prefab_lib E argv s
  = (Raise e, Stage.State fs1 (Stage.trace s ++ [Stage.Make target])).
Proof.
  intros Hlen Hbt Hmode Hplat target Hmake.
  unfold Stage.update_cmake_prefab_lib.
  rewrite bool_decide_eq_false_2 by (intros H; by apply H).
  rewrite bool_decide_eq_false_2 by (intros H; by apply H).
  rewrite bool_decide_eq_false_2 by (intros H; by apply H).
  rewrite bind_unfold. unfold Stage.lift. rewrite Hplat.
  rewrite bind_unfold. fold target. unfold Stage.make, Stage.effect.
  by rewrite Hmake.
Qed.

(** X8.  When [make] succeeds but the target file is not there, the
    command ends with [FileNotFoundError] for the target: no directory is
    created and nothing is copied. *)
Theorem missing_target_not_copied (E : Stage.env) (argv : list string)
    (s : Stage.state) (platform : string) (fs1 : gmap string Stage.entry) :
  length argv = 5 →
  nth 2 argv "" ∈ ({[ "standard"; "server" ]} : gset string) →
  nth 3 argv "" ∈ ({[ "debug"; "release" ]} : gset string) →
  Stage.get_current_prefab_platform E = Ok platform →
  let target := Stage.target_of platform (nth 2 argv "") (nth 3 argv "") in
  Stage.run_make E target (Stage.files s) = (fs1, None) →
  fs1 !! target = None →
  Stage.update_cmake_prefab_lib E argv s
  = (Raise (FileNotFoundError target),
     Stage.State fs1 (Stage.trace s ++ [Stage.Make target])).
Proof.
  intros Hlen Hbt Hmode Hplat target Hmake Hnone.
  rewrite (command_reaches_stage E argv s platform fs1 Hlen Hbt Hmode Hplat
             Hmake).
  fold target. unfold Stage.stage. rewrite bind_unfold.
  unfold Stage.getmtime at 1. cbn [Stage.files]. by rewrite Hnone.
Qed.

Lemma failed_make_stops_staging_witness :
  Stage.update_cmake_prefab_lib failing_make_env Stage.demo_argv
                                Stage.stale_start
  = (Raise (CalledProcessError ["make"; Stage.demo_target]),
     Stage.State (Stage.files Stage.stale_start)
                 (Stage.trace Stage.stale_start
                  ++ [Stage.Make Stage.demo_target])).
Proof.
  apply (failed_make_stops_staging failing_make_env Stage.demo_argv
           Stage.stale_start "linux_x86_64" (Stage.files Stage.stale_start)
           (CalledProcessError ["make"; Stage.demo_target]));
    try reflexivity.
  all: apply (bool_decide_unpack _); by vm_compute.
Defined.

Lemma missing_target_not_copied_witness :
  Stage.update_cmake_prefab_lib idle_make_env Stage.demo_argv
                                Stage.stale_start
  = (Raise (FileNotFoundError Stage.demo_target),
     Stage.State (Stage.files Stage.stale_start)
                 (Stage.trace Stage.stale_start
                  ++ [Stage.Make Stage.demo_target])).
Proof.
  apply (missing_target_not_copied idle_make_env Stage.demo_argv
           Stage.stale_start "linux_x86_64" (Stage.files Stage.stale_start));
    try reflexivity.
  all: try (apply (bool_decide_unpack _); by vm_compute).
  all: by vm_compute.
Defined.

(** X9.  In a run that gets past [make] with the target in place,
    [os.makedirs] is called exactly when a copy is due and the destination
    directory does not exist; an existing directory is never re-created. *)
Theorem makedirs_only_when_missing (E : Stage.env) (argv : list string)
    (fs0 fs1 : gmap string Stage.entry) (platform : string)
    (src : Stage.entry) :
  length argv = 5 →
  nth 2 argv "" ∈ ({[ "standard"; "server" ]} : gset string) →
  nth 3 argv "" ∈ ({[ "debug"; "release" ]} : gset string) →
  Stage.get_current_prefab_platform E = Ok platform →
  let target := Stage.target_of platform (nth 2 argv "") (nth 3 argv "") in
  let libdir := os_path_join (nth 4 argv "") "prefablib" in
  let libpath := os_path_join libdir "libballistica_plus.a" in
  Stage.run_make E target fs0 = (fs1, None) →
  fs1 !! target = Some src →
  let s' := (Stage.update_cmake_prefab_lib E argv (Stage.State fs0 [])).2 in
  existsb is_makedirs (Stage.trace s') = true
  ↔ fs1 !! libdir = None
    ∧ (fs1 !! libpath = None
       ∨ ∃ dst, fs1 !! libpath = Some dst
                ∧ (Stage.mtime dst < Stage.mtime src)%Z).
Proof.
  intros Hlen Hbt Hmode Hplat target libdir libpath Hmake Hsrc s'. subst s'.
  rewrite (command_reaches_stage E argv (Stage.State fs0 []) platform fs1
             Hlen Hbt Hmode Hplat Hmake).
  fold target. cbn [Stage.trace app].
  set (s1 := Stage.State fs1 [Stage.Make target]).
  assert (fs1 !! libpath = None
          ∨ (∃ dst, fs1 !! libpath = Some dst
                    ∧ (Stage.mtime dst < Stage.mtime src)%Z)
          ∨ ∃ dst, fs1 !! libpath = Some dst
                   ∧ (Stage.mtime src ≤ Stage.mtime dst)%Z) as Hcase.
  { destruct (fs1 !! libpath) as [dst|]; [| by left]. right.
    destruct (Z.le_gt_cases (Stage.mtime src) (Stage.mtime dst));
      [right | left]; by exists dst. }
  assert (fs1 !! libpath = None
          ∨ (∃ dst, fs1 !! libpath = Some dst
                    ∧ (Stage.mtime dst < Stage.mtime src)%Z) →
          existsb is_makedirs
            (Stage.trace (Stage.stage E target (nth 4 argv "") s1).2) = true
          ↔ fs1 !! libdir = None) as Hdue.
  { intros Hdue. rewrite (stage_copies E target _ s1 src Hsrc Hdue).
    fold libdir. rewrite bind_unfold. cbn [Stage.files s1].
    destruct (fs1 !! libdir) as [d|] eqn:Hd.
    - rewrite bool_decide_eq_true_2 by eauto. cbn [mret Stage.M_ret].
      unfold Stage.cp, Stage.effect. cbn [Stage.files Stage.trace s1].
      by destruct (Stage.run_cp E target libdir fs1) as [fs2 [e|]].
    - rewrite bool_decide_eq_false_2 by by intros [? ?].
      unfold Stage.makedirs, Stage.cp, Stage.effect.
      cbn [Stage.files Stage.trace s1].
      destruct (Stage.os_makedirs E libdir fs1) as [fs2 [e|]]; [done |].
      cbn [Stage.files Stage.trace].
      by destruct (Stage.run_cp E target libdir fs2) as [fs3 [e|]]. }
  destruct Hcase as [Hn | [Hold | (dst & Hd & Hle)]].
  - rewrite (Hdue (or_introl Hn)). tauto.
  - rewrite (Hdue (or_intror Hold)). tauto.
  - rewrite (stage_up_to_date E target _ s1 src dst Hsrc Hd Hle).
    cbn [snd Stage.trace s1 existsb is_makedirs orb].
    split; [intros ?; discriminate |].
    intros [_ [Hn | (d & Hd' & Hlt)]]; [congruence |].
    rewrite Hd in Hd'. injection Hd' as <-. lia.
Qed.

Lemma makedirs_only_when_missing_witness :
  let fs1 := <[Stage.demo_target := Stage.Entry 200 "built"]>
               (Stage.files Stage.fresh_start) in
  let s' := (Stage.update_cmake_prefab_lib Stage.demo_env Stage.demo_argv
               (Stage.State (Stage.files Stage.fresh_start) [])).2 in
  existsb is_makedirs (Stage.trace s') = true
  ↔ fs1 !! "out/prefablib" = None
    ∧ (fs1 !! "out/prefablib/libballistica_plus.a" = None
       ∨ ∃ dst, fs1 !! "out/prefablib/libballistica_plus.a" = Some dst
                ∧ (Stage.mtime dst < Stage.mtime (Stage.Entry 200 "built"))%Z).
Proof.
  apply (makedirs_only_when_missing Stage.demo_env Stage.demo_argv
           (Stage.files Stage.fresh_start)
           (<[Stage.demo_target := Stage.Entry 200 "built"]>
              (Stage.files Stage.fresh_start))
           "linux_x86_64" (Stage.Entry 200 "built"));
    try reflexivity.
  all: try (apply (bool_decide_unpack _); by vm_compute).
  all: try by vm_compute.
Defined.

(** ** android_archive_unstripped_libs *)

Section archive_facts.
Import Archive.
Context {FS : Type} (E : env FS).

Ltac run_cases :=
  repeat match goal with
         | |- context [run E ?a ?c ?f] =>
             let fs' := fresh "fs" in
             let ok := fresh "ok" in
             destruct (run E a c f) as [fs' ok]; destruct ok; cbn
         end.

(** One turn of the loop either does nothing, or logs one whole block, or
    stops at the external command that failed. *)
Lemma archive_one_cases (src dst : path) (a : string * string)
    (s : state FS) :
  let r := archive_one E src dst a.1 a.2 s in
  match r.1 with
  | inr _ => log r.2 = log s ∨ log r.2 = log s ++ block E src dst a
  | inl (CalledProcessErr argv) =>
      ∃ cwd evs, log r.2 = log s ++ evs ++ [Run argv cwd]
  | inl _ => False
  end.
Proof.
  destruct a as [abi abishort]. cbn [fst snd].
  unfold archive_one, bind, exists_, print, subprocess_run, ret.
  destruct (path_exists E _ (fs s)); cbn; [| by left].
  run_cases.
  - right. by rewrite <- !(assoc_L (++)).
  - eexists _, [_; _; _]. by rewrite <- !(assoc_L (++)).
  - eexists _, [_; _]. by rewrite <- !(assoc_L (++)).
  - eexists _, [_]. by rewrite <- !(assoc_L (++)).
Qed.

Lemma archive_each_cases (src dst : path) (l : list (string * string))
    (s : state FS) :
  let r := archive_each E src dst l s in
  match r.1 with
  | inr _ =>
      ∃ turns, turns `sublist_of` l
               ∧ log r.2 = log s ++ flat_map (block E src dst) turns
  | inl (CalledProcessErr argv) =>
      ∃ cwd evs, log r.2 = log s ++ evs ++ [Run argv cwd]
  | inl _ => False
  end.
Proof.
  revert s. induction l as [|[abi abishort] l IH]; intros s.
  - cbn. exists []. by rewrite app_nil_r.
  - cbn [archive_each]. cbv zeta. unfold bind.
    pose proof (archive_one_cases src dst (abi, abishort) s) as H1.
    cbn [fst snd] in H1.
    destruct (archive_one E src dst abi abishort s) as [[e|[]] s1];
      cbn [fst snd] in H1 |- *.
    { by destruct e. }
    specialize (IH s1). cbv zeta in IH.
    destruct (archive_each E src dst l s1) as [[e|[]] s2]; cbn [fst snd] in *.
    + destruct e; try done. destruct IH as (cwd & evs & IH).
      destruct H1 as [H1|H1]; rewrite H1 in IH.
      * by exists cwd, evs.
      * exists cwd, (block E src dst (abi, abishort) ++ evs).
        by rewrite IH, <- !(assoc_L (++)).
    + destruct IH as (turns & Hsub & IH).
      destruct H1 as [H1|H1]; rewrite H1 in IH.
      * exists turns. split; [by apply sublist_cons | done].
      * exists ((abi, abishort) :: turns). split; [by apply sublist_skip |].
        cbn [flat_map]. by rewrite IH, <- !(assoc_L (++)).
Qed.

Lemma bind_eq {A B : Type} (m : M A) (k : A → M B) (s : state FS) :
  bind m k s =
  match m s with
  | (inr a, s') => k a s'
  | (inl e, s') => (inl e, s')
  end.
Proof. reflexivity. Qed.

(** From the check of the source directory on. *)
Lemma archive_tail_cases (src dst : path) (s1 : state FS) :
  let r := bind (is_dir_ E src)
             (λ ok : bool,
                if ok then archive_each E src dst abis
                else fail (CleanErr ("Source dir not found: '"
                                     +:+ render E src +:+ "'"))) s1 in
  match r.1 with
  | inr _ =>
      ∃ turns, turns `sublist_of` abis
               ∧ log r.2 = log s1 ++ flat_map (block E src dst) turns
  | inl (CalledProcessErr av) =>
      ∃ cwd evs, log r.2 = log s1 ++ evs ++ [Run av cwd]
  | inl (CleanErr msg) =>
      msg = "Source dir not found: '" +:+ render E src +:+ "'"
      ∧ log r.2 = log s1 ∧ is_dir E src (fs r.2) = false
  | inl (OSErr _) => False
  end.
Proof.
  cbv zeta. rewrite bind_eq. unfold is_dir_, fail.
  destruct (is_dir E src (fs s1)) eqn:Hd; [| done].
  pose proof (archive_each_cases src dst abis s1) as H. cbv zeta in H.
  destruct (archive_each E src dst abis s1) as [[e|[]] s2];
    cbn [fst snd] in *; [| done].
  by destruct e.
Qed.

(** Everything a run with two arguments can come to. *)
Lemma android_cases (argv : list string) (s : state FS) :
  length argv = 4 →
  let src : path := [nth 2 argv ""] in
  let dst : path := [nth 3 argv ""] in
  let reset :=
    (if path_exists E dst (fs s)
     then [Run [Str "rm"; Str "-rf"; Pth dst] None] else [])
    ++ [Mkdir dst] in
  let r := android_archive_unstripped_libs E argv s in
  match r.1 with
  | inr _ =>
      ∃ turns, turns `sublist_of` abis
               ∧ log r.2 = log s ++ reset ++ flat_map (block E src dst) turns
  | inl (CalledProcessErr av) =>
      ∃ cwd evs, log r.2 = log s ++ evs ++ [Run av cwd]
  | inl (CleanErr msg) =>
      msg = "Source dir not found: '" +:+ render E src +:+ "'"
      ∧ log r.2 = log s ++ reset ∧ is_dir E src (fs r.2) = false
  | inl (OSErr _) => log r.2 = log s ++ reset
  end.
Proof.
  intros Hlen src dst reset r. subst reset.
  assert (r = android_archive_unstripped_libs E argv s) as Hr by done.
  clearbody r. unfold android_archive_unstripped_libs in Hr.
  rewrite bool_decide_eq_false_2 in Hr by (intros H; by apply H).
  fold src dst in Hr. rewrite bind_eq in Hr. unfold exists_ in Hr.
  destruct (path_exists E dst (fs s)).
  - rewrite bind_eq in Hr. unfold subprocess_run in Hr.
    destruct (run E _ None (fs s)) as [fs1 ok]. destruct ok.
    + rewrite bind_eq in Hr. unfold mkdir_ in Hr. cbn [fs log] in Hr.
      destruct (mkdir E dst fs1) as [fs2 [e|]].
      * subst r. cbn. by rewrite <- ?(assoc_L (++)).
      * match type of Hr with
        | _ = bind (is_dir_ E src) ?k ?s1 =>
            pose proof (archive_tail_cases src dst s1) as H;
            cbv zeta in H; rewrite <- Hr in H
        end.
        destruct r as [[e|[]] s2]; cbn [fst snd fs log] in *.
        -- destruct e; [| | done].
           ++ destruct H as (-> & -> & ?). by rewrite <- ?(assoc_L (++)).
           ++ destruct H as (cwd & evs & ->).
              exists cwd, ([Run [Str "rm"; Str "-rf"; Pth dst] None; Mkdir dst]
                           ++ evs).
              by rewrite <- ?(assoc_L (++)).
        -- destruct H as (turns & Hsub & ->). exists turns.
           split; [done |]. by rewrite <- ?(assoc_L (++)).
    + subst r. cbn. by exists None, [].
  - rewrite bind_eq in Hr. unfold ret in Hr. rewrite bind_eq in Hr.
    unfold mkdir_ in Hr.
    destruct (mkdir E dst (fs s)) as [fs2 [e|]]; [by subst r |].
    match type of Hr with
    | _ = bind (is_dir_ E src) ?k ?s1 =>
        pose proof (archive_tail_cases src dst s1) as H;
        cbv zeta in H; rewrite <- Hr in H
    end.
    destruct r as [[e|[]] s2]; cbn [fst snd fs log app] in *.
    + destruct e; [| | done].
      * by destruct H as (-> & -> & ?).
      * destruct H as (cwd & evs & ->).
        exists cwd, ([Mkdir dst] ++ evs). by rewrite <- ?(assoc_L (++)).
    + destruct H as (turns & Hsub & ->). exists turns.
      split; [done |]. by rewrite <- ?(assoc_L (++)).
Qed.

End archive_facts.

(** X10.  A run that completes has reset the destination (removed it if it
    was there, then created it) and then, for some of the four ABIs in
    their fixed order, logged the library, copied it in, archived the copy
    with tar and removed the copy: no copy is ever left beside its
    archive, and nothing else is done. *)
Theorem completed_archive_run_shape {FS : Type} (E : Archive.env FS)
    (argv : list string) (s s' : Archive.state FS) :
  Archive.android_archive_unstripped_libs E argv s = (inr tt, s') →
  let src : Archive.path := [nth 2 argv ""] in
  let dst : Archive.path := [nth 3 argv ""] in
  length argv = 4
  ∧ ∃ turns,
      turns `sublist_of` Archive.abis
      ∧ Archive.log s'
        = Archive.log s
          ++ ((if Archive.path_exists E dst (Archive.fs s)
               then [Archive.Run [Archive.Str "rm"; Archive.Str "-rf";
                                  Archive.Pth dst] None]
               else [])
              ++ [Archive.Mkdir dst])
          ++ flat_map (Archive.block E src dst) turns.
Proof.
  intros Hrun src dst.
  destruct (decide (length argv = 4)) as [Hlen|Hlen].
  - split; [done |]. pose proof (android_cases E argv s Hlen) as H.
    cbv zeta in H. by rewrite Hrun in H.
  - unfold Archive.android_archive_unstripped_libs in Hrun.
    by rewrite bool_decide_eq_true_2 in Hrun by done.
Qed.

Lemma completed_archive_run_shape_witness :
  let s := Archive.State Archive.demo_files [] in
  let s' := (Archive.android_archive_unstripped_libs Archive.demo_env
               Archive.demo_argv s).2 in
  length Archive.demo_argv = 4
  ∧ ∃ turns,
      turns `sublist_of` Archive.abis
      ∧ Archive.log s'
        = Archive.log s
          ++ ((if Archive.path_exists Archive.demo_env ["build/archive"]
                    (Archive.fs s)
               then [Archive.Run [Archive.Str "rm"; Archive.Str "-rf";
                                  Archive.Pth ["build/archive"]] None]
               else [])
              ++ [Archive.Mkdir ["build/archive"]])
          ++ flat_map (Archive.block Archive.demo_env ["build/libs"]
                         ["build/archive"]) turns.
Proof.
  apply (completed_archive_run_shape Archive.demo_env Archive.demo_argv
           (Archive.State Archive.demo_files [])).
  by vm_compute.
Defined.

(** X11.  The command ends with [CleanError] in two ways only.  With the
    wrong number of arguments nothing has been done.  With the source
    directory missing, the destination has by then been reset: removed if
    it was there (with whatever it held) and re-created empty. *)
Theorem archive_clean_error_cases {FS : Type} (E : Archive.env FS)
    (argv : list string) (s s' : Archive.state FS) (msg : string) :
  Archive.android_archive_unstripped_libs E argv s
  = (inl (Archive.CleanErr msg), s') →
  let src : Archive.path := [nth 2 argv ""] in
  let dst : Archive.path := [nth 3 argv ""] in
  (length argv ≠ 4 ∧ s' = s
   ∧ msg = "Expected 2 args; src-dir and dst-dir")
  ∨ (length argv = 4
     ∧ msg = "Source dir not found: '" +:+ Archive.render E src +:+ "'"
     ∧ Archive.is_dir E src (Archive.fs s') = false
     ∧ Archive.log s'
       = Archive.log s
         ++ (if Archive.path_exists E dst (Archive.fs s)
             then [Archive.Run [Archive.Str "rm"; Archive.Str "-rf";
                                Archive.Pth dst] None]
             else [])
         ++ [Archive.Mkdir dst]).
Proof.
  intros Hrun src dst.
  destruct (decide (length argv = 4)) as [Hlen|Hlen].
  - right. pose proof (android_cases E argv s Hlen) as H.
    cbv zeta in H. rewrite Hrun in H. cbn [fst snd] in H.
    by destruct H as (? & ? & ?).
  - left. unfold Archive.android_archive_unstripped_libs in Hrun.
    rewrite bool_decide_eq_true_2 in Hrun by done.
    unfold Archive.fail in Hrun. by injection Hrun as <- <-.
Qed.

Lemma archive_clean_error_cases_witness :
  let s := Archive.State Archive.nosrc_files [] in
  let s' := (Archive.android_archive_unstripped_libs Archive.demo_env
               Archive.demo_argv s).2 in
  (length Archive.demo_argv ≠ 4 ∧ s' = s
   ∧ "Source dir not found: 'build/libs'"
     = "Expected 2 args; src-dir and dst-dir")
  ∨ (length Archive.demo_argv = 4
     ∧ "Source dir not found: 'build/libs'"
       = "Source dir not found: '"
         +:+ Archive.render Archive.demo_env ["build/libs"] +:+ "'"
     ∧ Archive.is_dir Archive.demo_env ["build/libs"] (Archive.fs s') = false
     ∧ Archive.log s'
       = Archive.log s
         ++ (if Archive.path_exists Archive.demo_env ["build/archive"]
                  (Archive.fs s)
             then [Archive.Run [Archive.Str "rm"; Archive.Str "-rf";
                                Archive.Pth ["build/archive"]] None]
             else [])
         ++ [Archive.Mkdir ["build/archive"]]).
Proof.
  apply (archive_clean_error_cases Archive.demo_env Archive.demo_argv
           (Archive.State Archive.nosrc_files [])).
  by vm_compute.
Defined.



(** ** py_examine *)

Lemma add_path_prefix (d : string) (sp : list string) :
  sp `prefix_of` Examine.add_path d sp.
Proof.
  unfold Examine.add_path. destruct (bool_decide _); [done |].
  by apply prefix_app_r.
Qed.

Lemma add_path_in (d : string) (sp : list string) :
  d ∈ Examine.add_path d sp.
Proof.
  unfold Examine.add_path. destruct (bool_decide _) eqn:H.
  - by apply bool_decide_eq_true in H.
  - apply elem_of_app. right. by left.
Qed.

Lemma add_path_NoDup (d : string) (sp : list string) :
  NoDup sp → NoDup (Examine.add_path d sp).
Proof.
  intros Hnd. unfold Examine.add_path. destruct (bool_decide _) eqn:H; [done |].
  apply bool_decide_eq_false in H. apply NoDup_app. split; [done |].
  split; [| apply NoDup_singleton].
  intros x Hx Hd. apply list_elem_of_singleton in Hd as ->. done.
Qed.

Lemma add_path_present (d : string) (sp : list string) :
  d ∈ sp → Examine.add_path d sp = sp.
Proof. intros H. unfold Examine.add_path. by rewrite bool_decide_eq_true_2. Qed.

(** X13.  With the wrong number of arguments, or a line or column that
    [int] does not accept, the command fails without having changed
    [sys.path], changed directory or called the examination; the only
    thing it may have done is print its usage error before exiting with
    status 255.  That line is printed exactly when the number of arguments
    is wrong; otherwise nothing is printed. *)
Theorem bad_examine_arguments_change_nothing (E : Examine.env)
    (argv : list string) (s : Examine.state) :
  length argv ≠ 7
  ∨ Examine.py_int E (nth 3 argv "") = None
  ∨ Examine.py_int E (nth 4 argv "") = None →
  let r := Examine.py_examine E argv s in
  (∃ f, r.1 = inl f
        ∧ (length argv ≠ 7 → f = Examine.SystemExit 255))
  ∧ Examine.sys_path r.2 = Examine.sys_path s
  ∧ filter (λ ev, Examine.is_call ev = true) (Examine.log r.2)
    = filter (λ ev, Examine.is_call ev = true) (Examine.log s)
  ∧ Examine.log r.2
    = Examine.log s
        ++ (if bool_decide (length argv ≠ 7)
            then [Examine.Print "ERROR: expected 7 args"] else []).
Proof.
  intros Hbad r. subst r. unfold Examine.py_examine.
  destruct (bool_decide (length argv ≠ 7)) eqn:Hlen.
  - cbn [fst snd Examine.sys_path Examine.log]. split; [by eauto |].
    split; [done |]. split; [| done].
    rewrite filter_app. cbn. by rewrite app_nil_r.
  - apply bool_decide_eq_false in Hlen.
    destruct (Examine.py_int E (nth 3 argv "")) as [line|] eqn:H3.
    + destruct (Examine.py_int E (nth 4 argv "")) as [column|] eqn:H4.
      * exfalso. destruct Hbad as [?|[?|?]]; done.
      * cbn. rewrite app_nil_r. split; [| done].
        eexists. split; [done |]. intros ?. done.
    + cbn. rewrite app_nil_r. split; [| done].
      eexists. split; [done |]. intros ?. done.
Qed.

Lemma bad_examine_arguments_change_nothing_witness :
  let argv := ["tools/pcommand"; "py_examine"; "src/x.py"; "12"; "x4"; "";
               "sig"] in
  let r := Examine.py_examine Examine.demo_env argv Examine.demo_state in
  (∃ f, r.1 = inl f
        ∧ (length argv ≠ 7 → f = Examine.SystemExit 255))
  ∧ Examine.sys_path r.2 = Examine.sys_path Examine.demo_state
  ∧ filter (λ ev, Examine.is_call ev = true) (Examine.log r.2)
    = filter (λ ev, Examine.is_call ev = true)
             (Examine.log Examine.demo_state)
  ∧ Examine.log r.2
    = Examine.log Examine.demo_state
        ++ (if bool_decide (length argv ≠ 7)
            then [Examine.Print "ERROR: expected 7 args"] else []).
Proof.
  apply (bad_examine_arguments_change_nothing Examine.demo_env
           ["tools/pcommand"; "py_examine"; "src/x.py"; "12"; "x4"; "";
            "sig"]
           Examine.demo_state).
  right. right. reflexivity.
Defined.

(** X14.  With seven arguments and an integer line and column, the
    command leaves the old [sys.path] in place as a prefix and appends at
    most the scripts directory and the tools directory, each only if it is
    not there yet: afterwards both are on the path, and a path without
    duplicates still has none.  This holds whether or not the examination
    itself raises. *)
Theorem examine_extends_sys_path (E : Examine.env) (argv : list string)
    (s : Examine.state) (line column : Z) :
  length argv = 7 →
  Examine.py_int E (nth 3 argv "") = Some line →
  Examine.py_int E (nth 4 argv "") = Some column →
  let sp := Examine.sys_path (Examine.py_examine E argv s).2 in
  Examine.sys_path s `prefix_of` sp
  ∧ Examine.scriptsdir E argv ∈ sp
  ∧ Examine.toolsdir E argv ∈ sp
  ∧ (∀ d, d ∈ sp → d ∈ Examine.sys_path s ∨ d = Examine.scriptsdir E argv
                   ∨ d = Examine.toolsdir E argv)
  ∧ (NoDup (Examine.sys_path s) → NoDup sp).
Proof.
  intros Hlen H3 H4 sp. subst sp. unfold Examine.py_examine.
  rewrite bool_decide_eq_false_2 by (intros H; by apply H).
  rewrite H3, H4.
  set (sp1 := Examine.add_path (Examine.scriptsdir E argv) (Examine.sys_path s)).
  set (sp2 := Examine.add_path (Examine.toolsdir E argv) sp1).
  assert (Examine.sys_path
            (match Examine.examine E (nth 2 argv "") line column
                     (if bool_decide (nth 5 argv "" = "") then None
                      else Some (nth 5 argv "")) (nth 6 argv "") with
             | None =>
                 (inr tt,
                  Examine.State sp2
                    (Examine.log s
                     ++ [Examine.Chdir;
                         Examine.PyExamine (nth 2 argv "") line column
                           (if bool_decide (nth 5 argv "" = "") then None
                            else Some (nth 5 argv "")) (nth 6 argv "")]))
             | Some e =>
                 (inl (Examine.Raised e),
                  Examine.State sp2
                    (Examine.log s
                     ++ [Examine.Chdir;
                         Examine.PyExamine (nth 2 argv "") line column
                           (if bool_decide (nth 5 argv "" = "") then None
                            else Some (nth 5 argv "")) (nth 6 argv "")]))
             end).2 = sp2) as -> by by destruct (Examine.examine _ _ _ _ _ _).
  split; [| split; [| split; [| split]]].
  - etrans; apply add_path_prefix.
  - destruct (add_path_prefix (Examine.toolsdir E argv) sp1) as [k Hk].
    fold sp2 in Hk. rewrite Hk. apply elem_of_app. left. apply add_path_in.
  - apply add_path_in.
  - intros d. unfold sp2, sp1, Examine.add_path.
    repeat destruct (bool_decide _); rewrite ?elem_of_app, ?list_elem_of_singleton;
      tauto.
  - intros Hnd. by do 2 apply add_path_NoDup.
Qed.

Lemma examine_extends_sys_path_witness :
  let sp := Examine.sys_path
              (Examine.py_examine Examine.demo_env Examine.demo_argv
                 Examine.demo_state).2 in
  Examine.sys_path Examine.demo_state `prefix_of` sp
  ∧ Examine.scriptsdir Examine.demo_env Examine.demo_argv ∈ sp
  ∧ Examine.toolsdir Examine.demo_env Examine.demo_argv ∈ sp
  ∧ (∀ d, d ∈ sp →
          d ∈ Examine.sys_path Examine.demo_state
          ∨ d = Examine.scriptsdir Examine.demo_env Examine.demo_argv
          ∨ d = Examine.toolsdir Examine.demo_env Examine.demo_argv)
  ∧ (NoDup (Examine.sys_path Examine.demo_state) → NoDup sp).
Proof.
  apply (examine_extends_sys_path Examine.demo_env Examine.demo_argv
           Examine.demo_state 12 4);
    reflexivity.
Defined.

(** X15.  Examining twice does not grow [sys.path] twice: a second run
    with the same program path leaves [sys.path] exactly as the first run
    left it. *)
Theorem examine_again_keeps_sys_path (E : Examine.env)
    (argv argv' : list string) (s : Examine.state) (line column line' column' : Z) :
  length argv = 7 → length argv' = 7 →
  nth 0 argv' "" = nth 0 argv "" →
  Examine.py_int E (nth 3 argv "") = Some line →
  Examine.py_int E (nth 4 argv "") = Some column →
  Examine.py_int E (nth 3 argv' "") = Some line' →
  Examine.py_int E (nth 4 argv' "") = Some column' →
  let s1 := (Examine.py_examine E argv s).2 in
  Examine.sys_path (Examine.py_examine E argv' s1).2 = Examine.sys_path s1.
Proof.
  intros Hlen Hlen' H0 H3 H4 H3' H4' s1.
  destruct (examine_extends_sys_path E argv s line column Hlen H3 H4)
    as (_ & Hs & Ht & _).
  fold s1 in Hs, Ht. clearbody s1.
  unfold Examine.py_examine.
  rewrite bool_decide_eq_false_2 by (intros H; by apply H).
  rewrite H3', H4'.
  assert (Examine.scriptsdir E argv' = Examine.scriptsdir E argv) as ->
    by (unfold Examine.scriptsdir; by rewrite H0).
  assert (Examine.toolsdir E argv' = Examine.toolsdir E argv) as ->
    by (unfold Examine.toolsdir; by rewrite H0).
  rewrite (add_path_present _ _ Hs), (add_path_present _ _ Ht).
  by destruct (Examine.examine _ _ _ _ _ _).
Qed.

Lemma examine_again_keeps_sys_path_witness :
  let s1 := (Examine.py_examine Examine.demo_env Examine.demo_argv
               Examine.demo_state).2 in
  Examine.sys_path
    (Examine.py_examine Examine.demo_env
       ["tools/pcommand"; "py_examine"; "src/y.py"; "3"; "0"; "name"; "doc"]
       s1).2
  = Examine.sys_path s1.
Proof.
  apply (examine_again_keeps_sys_path Examine.demo_env Examine.demo_argv
           ["tools/pcommand"; "py_examine"; "src/y.py"; "3"; "0"; "name";
            "doc"]
           Examine.demo_state 12 4 3 0);
    reflexivity.
Defined.

(** ** spinoff_check_submodule_parent *)

(** X16.  The check passes exactly when tools/spinoff is a symbolic link
    that leads somewhere and submodules/ballistica is (or links to) a
    directory.  It can only fail with [CleanError]; in particular a
    dangling link at tools/spinoff is reported as "not spinoff-enabled",
    not as a spinoff parent. *)
Theorem spinoff_check_passes_iff (fs : gmap string Spinoff.node) :
  (Spinoff.spinoff_check_submodule_parent fs = Ok tt
   ↔ (∃ r, fs !! "tools/spinoff" = Some (Spinoff.Link (Some r)))
     ∧ Spinoff.isdir fs "submodules/ballistica" = true)
  ∧ (∀ e, Spinoff.spinoff_check_submodule_parent fs = Raise e →
          ∃ msg, e = CleanError msg)
  ∧ (fs !! "tools/spinoff" = Some (Spinoff.Link None) →
     Spinoff.spinoff_check_submodule_parent fs
     = Raise (CleanError Spinoff.not_enabled))
  ∧ (∀ r, fs !! "tools/spinoff" = Some (Spinoff.Real r) →
          Spinoff.spinoff_check_submodule_parent fs
          = Raise (CleanError Spinoff.is_parent)).
Proof.
  unfold Spinoff.spinoff_check_submodule_parent, Spinoff.path_exists,
    Spinoff.islink.
  destruct (fs !! "tools/spinoff") as [[r|[r|]]|] eqn:Hs; cbn;
    destruct (Spinoff.isdir fs "submodules/ballistica"); cbn;
    repeat split; try done; try (intros; simplify_eq; by eauto);
    try (by intros [[? ?] ?]); try (by intros [? ?]); eauto.
Qed.

(** ** gen_monolithic_register_modules: the generated declarations *)

Lemma ascii_compare_refl (c : Ascii.ascii) : Ascii.compare c c = Eq.
Proof. unfold Ascii.compare. apply N.compare_refl. Qed.

Lemma ascii_compare_lt_trans (a b c : Ascii.ascii) :
  Ascii.compare a b = Lt → Ascii.compare b c = Lt → Ascii.compare a c = Lt.
Proof.
  unfold Ascii.compare. rewrite !N.compare_lt_iff. lia.
Qed.

Lemma str_le_trans (a b c : string) :
  Gen.str_le a b → Gen.str_le b c → Gen.str_le a c.
Proof.
  unfold Gen.str_le, String.leb. revert b c.
  induction a as [|x a IH]; intros [|y b] [|z c]; cbn [String.compare];
    try done.
  destruct (Ascii.compare x y) eqn:Hxy; [| | done];
    destruct (Ascii.compare y z) eqn:Hyz; try done.
  - apply Ascii.compare_eq_iff in Hxy as ->. rewrite Hyz. apply IH.
  - apply Ascii.compare_eq_iff in Hxy as ->. by rewrite Hyz.
  - apply Ascii.compare_eq_iff in Hyz as <-. by rewrite Hxy.
  - by rewrite (ascii_compare_lt_trans x y z Hxy Hyz).
Qed.

#[local] Instance str_le_transitive : Transitive Gen.str_le.
Proof. intros a b c. apply str_le_trans. Qed.

#[local] Instance str_le_total : Total Gen.str_le.
Proof. intros a b. apply String.leb_total. Qed.

#[local] Instance str_le_antisym : AntiSymm eq Gen.str_le.
Proof. intros a b. apply String.leb_antisym. Qed.

(** X17.  The generated declarations do not depend on the order in which
    the feature sets are found: the module names are those of the feature
    sets with a native module and no others, put in ascending string
    order, so two listings of the same feature sets give the same extern
    block and the same registration block. *)
Theorem generated_code_ignores_order (sets1 sets2 : list Gen.featureset) :
  sets1 ≡ₚ sets2 →
  Gen.pymodulenames sets1 = Gen.pymodulenames sets2
  ∧ Gen.extern_def_code sets1 = Gen.extern_def_code sets2
  ∧ Gen.py_register_code sets1 = Gen.py_register_code sets2
  ∧ Sorted Gen.str_le (Gen.pymodulenames sets1)
  ∧ (∀ n, n ∈ Gen.pymodulenames sets1
          ↔ ∃ f, f ∈ sets1 ∧ Gen.has_native_python_module f = true
                 ∧ Gen.name_python_binary_module f = n).
Proof.
  intros Hperm.
  assert (Gen.pymodulenames sets1 = Gen.pymodulenames sets2) as Hnames.
  { unfold Gen.pymodulenames.
    apply (Sorted_unique Gen.str_le); try apply Sorted_merge_sort; try apply _.
    rewrite !merge_sort_Permutation. by rewrite Hperm. }
  split; [done |]. unfold Gen.extern_def_code, Gen.py_register_code.
  rewrite Hnames. split; [done |]. split; [done |]. split.
  - rewrite <- Hnames. unfold Gen.pymodulenames.
    apply Sorted_merge_sort. apply _.
  - intros n. rewrite <- Hnames. unfold Gen.pymodulenames.
    rewrite merge_sort_Permutation, list_elem_of_fmap.
    split.
    + intros (f & -> & Hf). apply list_elem_of_filter in Hf as [? ?].
      by exists f.
    + intros (f & Hf & Hn & <-). exists f. split; [done |].
      by apply list_elem_of_filter.
Qed.

Lemma generated_code_ignores_order_witness :
  Gen.pymodulenames Gen.demo_sets = Gen.pymodulenames Gen.demo_sets_shuffled
  ∧ Gen.extern_def_code Gen.demo_sets
    = Gen.extern_def_code Gen.demo_sets_shuffled
  ∧ Gen.py_register_code Gen.demo_sets
    = Gen.py_register_code Gen.demo_sets_shuffled
  ∧ Sorted Gen.str_le (Gen.pymodulenames Gen.demo_sets)
  ∧ (∀ n, n ∈ Gen.pymodulenames Gen.demo_sets
          ↔ ∃ f, f ∈ Gen.demo_sets ∧ Gen.has_native_python_module f = true
                 ∧ Gen.name_python_binary_module f = n).
Proof.
  apply (generated_code_ignores_order Gen.demo_sets Gen.demo_sets_shuffled).
  symmetry. exact (reverse_Permutation Gen.demo_sets).
Defined.
